(** * Trail.Ai voice chat: conversation store, message exchange, backend

    A shallow embedding of the client state logic of [App] (the React
    component holding the conversation list, the active conversation id
    and the send pipeline), of the backend endpoints it talks to, and of
    the browser and Node primitives both rely on
    ([String.prototype.trim], [atob], [Buffer.toString("base64")],
    [Date.now], [crypto.randomUUID], [window.alert],
    [URL.createObjectURL], the Firestore [setDoc]/[deleteDoc] calls).

    JavaScript strings are sequences of UTF-16 code units, modelled as
    [list N].  React state is an explicit record; a handler is a function
    of the render it was created in (its closure) and of the state it
    updates.  Everything outside React state (clock, id source, alerts,
    remote calls, requests, object URLs) lives in a [World] threaded by a
    small state monad.  The services behind the backend (language model,
    speech synthesis and recognition, file reading) are parameters giving
    the answer to each request.

    Layout: the definitions come first ([JS], [Base64], [App],
    [Backend]), the facts after them. *)

From Stdlib Require Import List NArith ZArith Lia Bool String Ascii.
From Stdlib Require Import DecimalString.
Import ListNotations.

(** ** JavaScript strings *)

Module JS.

Definition jsstring := list N.

(** An ASCII literal as a sequence of code units. *)
Definition lit (s : string) : jsstring :=
  map N_of_ascii (list_ascii_of_string s).

Fixpoint str_eqb (a b : jsstring) : bool :=
  match a, b with
  | [], [] => true
  | x :: a', y :: b' => N.eqb x y && str_eqb a' b'
  | _, _ => false
  end.

(** Truthiness of a string value: only the empty string is falsy. *)
Definition truthy (s : jsstring) : bool :=
  match s with [] => false | _ :: _ => true end.

(** WhiteSpace and LineTerminator code units of ECMAScript, the ones
    [trim] strips: TAB, LF, VT, FF, CR, SP, NBSP, the Zs category,
    LS, PS and the byte order mark. *)
Definition isWhiteSpace (c : N) : bool :=
  ((c =? 9) || (c =? 10) || (c =? 11) || (c =? 12) || (c =? 13)
   || (c =? 32) || (c =? 160) || (c =? 5760)
   || ((8192 <=? c) && (c <=? 8202))
   || (c =? 8232) || (c =? 8233) || (c =? 8239) || (c =? 8287)
   || (c =? 12288) || (c =? 65279))%N.

Fixpoint trimStart (s : jsstring) : jsstring :=
  match s with
  | [] => []
  | c :: r => if isWhiteSpace c then trimStart r else s
  end.

Definition trimEnd (s : jsstring) : jsstring := rev (trimStart (rev s)).

Definition trim (s : jsstring) : jsstring := trimEnd (trimStart s).

(** [String(n)] and template interpolation of an integer. *)
Definition String_of_nat (n : nat) : jsstring :=
  lit (NilEmpty.string_of_uint (Nat.to_uint n)).

Definition String_of_N (n : N) : jsstring :=
  lit (NilEmpty.string_of_uint (N.to_uint n)).

Definition String_of_Z (z : Z) : jsstring :=
  lit (NilEmpty.string_of_int (Z.to_int z)).

End JS.

Import JS.

(** ** Base64: Node's encoder and the browser's [atob] *)

Module Base64.

Local Open Scope N_scope.

(** The alphabet of RFC 4648, by index. *)
Definition alphabet (i : N) : N :=
  if i <? 26 then 65 + i
  else if i <? 52 then 97 + (i - 26)
  else if i <? 62 then 48 + (i - 52)
  else if i =? 62 then 43
  else 47.

Definition pad : N := 61.

(** Position of a code unit in the alphabet. *)
Definition sextet_of (c : N) : option N :=
  if (65 <=? c) && (c <=? 90) then Some (c - 65)
  else if (97 <=? c) && (c <=? 122) then Some (c - 97 + 26)
  else if (48 <=? c) && (c <=? 57) then Some (c - 48 + 52)
  else if c =? 43 then Some 62
  else if c =? 47 then Some 63
  else None.

(** [buffer.toString("base64")]: three bytes to four characters, the
    tail padded with [=]. *)
Fixpoint encode (bytes : list N) : jsstring :=
  match bytes with
  | [] => []
  | [a] => [alphabet (a / 4); alphabet ((a mod 4) * 16); pad; pad]
  | [a; b] =>
      [alphabet (a / 4); alphabet ((a mod 4) * 16 + b / 16);
       alphabet ((b mod 16) * 4); pad]
  | a :: b :: c :: rest =>
      alphabet (a / 4) :: alphabet ((a mod 4) * 16 + b / 16)
        :: alphabet ((b mod 16) * 4 + c / 64) :: alphabet (c mod 64)
        :: encode rest
  end.

(** ASCII whitespace of the forgiving-base64 decoder. *)
Definition isAsciiWhitespace (c : N) : bool :=
  (c =? 9) || (c =? 10) || (c =? 12) || (c =? 13) || (c =? 32).

(** Removal of one or two trailing [=]. *)
Fixpoint strip_padding (data : jsstring) : jsstring :=
  match data with
  | [] => []
  | c :: r =>
      match r with
      | [] => if c =? pad then [] else [c]
      | [d] => if (c =? pad) && (d =? pad) then [] else c :: strip_padding r
      | _ => c :: strip_padding r
      end
  end.

Fixpoint sextets (data : jsstring) : option (list N) :=
  match data with
  | [] => Some []
  | c :: r =>
      match sextet_of c, sextets r with
      | Some s, Some ss => Some (s :: ss)
      | _, _ => None
      end
  end.

(** Twenty-four bits at a time; a tail of twelve bits gives one byte and
    a tail of eighteen bits two, the spare low bits being dropped. *)
Fixpoint bytes_of_sextets (ss : list N) : list N :=
  match ss with
  | s0 :: s1 :: s2 :: s3 :: rest =>
      (s0 * 4 + s1 / 16) :: ((s1 mod 16) * 16 + s2 / 4)
        :: ((s2 mod 4) * 64 + s3) :: bytes_of_sextets rest
  | [s0; s1; s2] => [s0 * 4 + s1 / 16; (s1 mod 16) * 16 + s2 / 4]
  | [s0; s1] => [s0 * 4 + s1 / 16]
  | _ => []
  end.

(** [atob]: the forgiving-base64 decoder of the HTML standard.  [None]
    stands for the InvalidCharacterError it throws; the result is a
    binary string, one code unit below 256 per byte. *)
Definition atob (data : jsstring) : option jsstring :=
  let data := filter (fun c => negb (isAsciiWhitespace c)) data in
  let data :=
    if N.of_nat (List.length data) mod 4 =? 0 then strip_padding data else data in
  if N.of_nat (List.length data) mod 4 =? 1 then None
  else
    match sextets data with
    | Some ss => Some (bytes_of_sextets ss)
    | None => None
    end.

(** The sextets [encode] writes, before padding. *)
Fixpoint sextets_of_bytes (bytes : list N) : list N :=
  match bytes with
  | [] => []
  | [a] => [a / 4; (a mod 4) * 16]
  | [a; b] => [a / 4; (a mod 4) * 16 + b / 16; (b mod 16) * 4]
  | a :: b :: c :: rest =>
      a / 4 :: (a mod 4) * 16 + b / 16 :: (b mod 16) * 4 + c / 64 :: c mod 64
        :: sextets_of_bytes rest
  end.

Fixpoint padding_of_bytes (bytes : list N) : nat :=
  match bytes with
  | [] => 0
  | [_] => 2
  | [_; _] => 1
  | _ :: _ :: _ :: rest => padding_of_bytes rest
  end.

End Base64.

(** ** The client: data model, world and handlers *)

Module App.

Inductive Role := RoleUser | RoleAi.

(** The handle [URL.createObjectURL] returns: the position of the blob
    in the document's blob URL store. *)
Definition ObjectUrl := nat.

Record Blob := { blob_bytes : list N; blob_type : jsstring }.

Record Message := {
  role : Role;
  text : jsstring;
  audioUrl : option ObjectUrl;
  timestamp : Z
}.

(** A conversation record.  [messages] is optional because a remote
    document may lack the field; the code reads it as [c.messages || []]. *)
Record Conversation := {
  id : jsstring;
  title : jsstring;
  createdAt : Z;
  messages : option (list Message)
}.

Definition messages_or_empty (c : Conversation) : list Message :=
  match messages c with Some ms => ms | None => [] end.

Definition with_messages (c : Conversation) (ms : list Message) :=
  {| id := id c; title := title c; createdAt := createdAt c;
     messages := Some ms |}.

Definition with_title (c : Conversation) (t : jsstring) :=
  {| id := id c; title := t; createdAt := createdAt c;
     messages := messages c |}.

(** The signed-in user; only [uid] takes part in the store logic. *)
Record User := { uid : jsstring }.

Record File := { name : jsstring; content : list N }.

(** React state of [App] (theme, menus and the auth form are left out). *)
Record AppState := {
  conversations : list Conversation;
  currentConversationId : option jsstring;
  inputText : jsstring;
  loading : bool;
  selectedFile : option File;
  chatLoading : bool;
  user : option User
}.

Definition setConversations (v : list Conversation) (s : AppState) :=
  {| conversations := v; currentConversationId := currentConversationId s;
     inputText := inputText s; loading := loading s;
     selectedFile := selectedFile s; chatLoading := chatLoading s;
     user := user s |}.

Definition setCurrentConversationId (v : option jsstring) (s : AppState) :=
  {| conversations := conversations s; currentConversationId := v;
     inputText := inputText s; loading := loading s;
     selectedFile := selectedFile s; chatLoading := chatLoading s;
     user := user s |}.

Definition setInputText (v : jsstring) (s : AppState) :=
  {| conversations := conversations s;
     currentConversationId := currentConversationId s;
     inputText := v; loading := loading s;
     selectedFile := selectedFile s; chatLoading := chatLoading s;
     user := user s |}.

Definition setLoading (v : bool) (s : AppState) :=
  {| conversations := conversations s;
     currentConversationId := currentConversationId s;
     inputText := inputText s; loading := v;
     selectedFile := selectedFile s; chatLoading := chatLoading s;
     user := user s |}.

Definition setSelectedFile (v : option File) (s : AppState) :=
  {| conversations := conversations s;
     currentConversationId := currentConversationId s;
     inputText := inputText s; loading := loading s;
     selectedFile := v; chatLoading := chatLoading s;
     user := user s |}.

Definition setChatLoading (v : bool) (s : AppState) :=
  {| conversations := conversations s;
     currentConversationId := currentConversationId s;
     inputText := inputText s; loading := loading s;
     selectedFile := selectedFile s; chatLoading := v;
     user := user s |}.

(** Calls made to the remote document store, keyed by user and
    conversation id. *)
Inductive RemoteCall :=
| SetDoc (uid convId : jsstring) (conv : Conversation)
| DeleteDoc (uid convId : jsstring).

(** Requests sent to the backend. *)
Inductive Request :=
| FileChat (file : File) (question : jsstring)
| VoiceChat (text : jsstring).

(** What [await response.json()] gives: a rejection (or a value whose
    fields cannot be read) with the error's message, or an object with
    the three string fields the client looks at. *)
Inductive Body :=
| BodyMalformed (message : jsstring)
| BodyObject (replyText audioBase64 error : option jsstring).

(** What [await fetch(...)] gives. *)
Inductive Outcome :=
| Rejected (message : jsstring)
| Responded (status : N) (body : Body).

Definition ok (status : N) : bool := ((200 <=? status) && (status <=? 299))%N.

(** Truthiness of an optional string field: absent and empty are falsy. *)
Definition field_truthy (f : option jsstring) : bool :=
  match f with Some s => truthy s | None => false end.

(** Everything outside React state. *)
Record World := {
  uuid_draws : nat;
  clock_reads : nat;
  alerts : list jsstring;
  firestore : list RemoteCall;
  network : list Request;
  blobs : list Blob
}.

Definition M (A : Type) : Type := World -> A * World.

Definition ret {A} (a : A) : M A := fun w => (a, w).

Definition bind {A B} (m : M A) (k : A -> M B) : M B :=
  fun w => let (a, w') := m w in k a w'.

Declare Scope app_scope.
Delimit Scope app_scope with app.
Notation "x <- m ;; k" := (bind m (fun x => k))
  (at level 61, m at next level, right associativity) : app_scope.
Notation "m ;; k" := (bind m (fun _ => k))
  (at level 61, right associativity) : app_scope.
Local Open Scope app_scope.

(** [array.map] with a callback that has effects: left to right. *)
Fixpoint mapM {A B} (f : A -> M B) (l : list A) : M (list B) :=
  match l with
  | [] => ret []
  | a :: r => b <- f a ;; bs <- mapM f r ;; ret (b :: bs)
  end.

Definition alert (msg : jsstring) : M unit := fun w =>
  (tt, {| uuid_draws := uuid_draws w; clock_reads := clock_reads w;
          alerts := alerts w ++ [msg]; firestore := firestore w;
          network := network w; blobs := blobs w |}).

Definition remote (c : RemoteCall) : M unit := fun w =>
  (tt, {| uuid_draws := uuid_draws w; clock_reads := clock_reads w;
          alerts := alerts w; firestore := firestore w ++ [c];
          network := network w; blobs := blobs w |}).

Definition fetch (r : Request) : M unit := fun w =>
  (tt, {| uuid_draws := uuid_draws w; clock_reads := clock_reads w;
          alerts := alerts w; firestore := firestore w;
          network := network w ++ [r]; blobs := blobs w |}).

Definition createObjectURL (b : Blob) : M ObjectUrl := fun w =>
  (List.length (blobs w),
   {| uuid_draws := uuid_draws w; clock_reads := clock_reads w;
      alerts := alerts w; firestore := firestore w;
      network := network w; blobs := blobs w ++ [b] |}).

(** A call that either returns or throws an error with a message. *)
Inductive Completion (A : Type) :=
| Returned (a : A)
| Threw (message : jsstring).
Arguments Returned {A} a.
Arguments Threw {A} message.

(** The browser the client runs in: its id source ([None] when
    [window.crypto.randomUUID] is missing), its clock (the value of the
    n-th reading), and the message of the error [atob] throws. *)
Record Browser := {
  crypto_randomUUID : option (nat -> jsstring);
  Date_now : nat -> Z;
  atob_error_message : jsstring
}.

Section Client.

Variable browser : Browser.

Definition now : M Z := fun w =>
  (Date_now browser (clock_reads w),
   {| uuid_draws := uuid_draws w; clock_reads := S (clock_reads w);
      alerts := alerts w; firestore := firestore w;
      network := network w; blobs := blobs w |}).

Definition randomUUID (gen : nat -> jsstring) : M jsstring := fun w =>
  (gen (uuid_draws w),
   {| uuid_draws := S (uuid_draws w); clock_reads := clock_reads w;
      alerts := alerts w; firestore := firestore w;
      network := network w; blobs := blobs w |}).

Definition createNewConversation (index : nat) : M Conversation :=
  i <- match crypto_randomUUID browser with
       | Some gen => randomUUID gen
       | None => t <- now ;; ret (String_of_Z t)
       end ;;
  t <- now ;;
  ret {| id := i;
         title := lit "New Chat " ++ String_of_nat index;
         createdAt := t;
         messages := Some [] |}.

Definition base64ToAudioUrl (base64 : jsstring) : M (Completion ObjectUrl) :=
  match Base64.atob base64 with
  | None => ret (Threw (atob_error_message browser))
  | Some binary =>
      let bytes := map (fun c => (c mod 256)%N) binary in
      url <- createObjectURL
               {| blob_bytes := bytes; blob_type := lit "audio/mpeg" |} ;;
      ret (Returned url)
  end.

(** [c.id === v] where [v] is a state value that may be [null]. *)
Definition id_is (v : option jsstring) (c : Conversation) : bool :=
  match v with Some i => str_eqb (id c) i | None => false end.

(** The conversation a render shows:
    [conversations.find(c => c.id === currentConversationId)
     || conversations[0]]. *)
Definition currentConversation (cl : AppState) : option Conversation :=
  match find (id_is (currentConversationId cl)) (conversations cl) with
  | Some c => Some c
  | None => hd_error (conversations cl)
  end.

Definition saveConversationToFirestore (cl : AppState) (conv : Conversation)
  : M unit :=
  match user cl with
  | None => ret tt
  | Some u => remote (SetDoc (uid u) (id conv) conv)
  end.

Definition deleteConversationFromFirestore (cl : AppState) (convId : jsstring)
  : M unit :=
  match user cl with
  | None => ret tt
  | Some u => remote (DeleteDoc (uid u) convId)
  end.

(** Logged-out effect: a fresh default conversation replaces the store. *)
Definition useEffect_loggedOut (cl st : AppState) : M AppState :=
  match user cl with
  | Some _ => ret st
  | None =>
      firstConv <- createNewConversation 1 ;;
      ret (setCurrentConversationId (Some (id firstConv))
             (setConversations [firstConv] st))
  end.

(** The snapshot listener the signed-in effect registers; no listener
    when the render has no user. *)
Definition onSnapshot_listener (cl : AppState)
  : option (list Conversation -> AppState -> M AppState) :=
  match user cl with
  | None => None
  | Some _ => Some (fun docs st =>
      let st := setChatLoading false st in
      match docs with
      | [] =>
          firstConv <- createNewConversation 1 ;;
          saveConversationToFirestore cl firstConv ;;
          ret (setCurrentConversationId (Some (id firstConv))
                 (setConversations [firstConv] st))
      | first :: _ =>
          let loaded := docs in
          let prev := currentConversationId st in
          ret (setCurrentConversationId
                 (match find (id_is prev) loaded with
                  | Some _ => prev
                  | None => Some (id first)
                  end)
                 (setConversations loaded st))
      end)
  end.

Definition updateCurrentConversationMessages (cl : AppState)
    (updater : list Message -> M (list Message)) (st : AppState)
  : M AppState :=
  match currentConversation cl with
  | None => ret st
  | Some cur =>
      updated <- mapM (fun c =>
                   if str_eqb (id c) (id cur)
                   then ms <- updater (messages_or_empty c) ;;
                        ret (with_messages c ms)
                   else ret c) (conversations st) ;;
      match user cl with
      | Some _ =>
          match find (fun c => str_eqb (id c) (id cur)) updated with
          | Some conv => saveConversationToFirestore cl conv
          | None => ret tt
          end
      | None => ret tt
      end ;;
      ret (setConversations updated st)
  end.

Definition handleNewChat (cl st : AppState) : M AppState :=
  let nextIndex := List.length (conversations cl) + 1 in
  newConv <- createNewConversation nextIndex ;;
  saveConversationToFirestore cl newConv ;;
  ret (setInputText []
         (setCurrentConversationId (Some (id newConv))
            (setConversations (conversations st ++ [newConv]) st))).

(** [answer] is what [window.prompt] returned: [None] when dismissed. *)
Definition handleRenameChat (cl : AppState) (conv : Conversation)
    (answer : option jsstring) (st : AppState) : M AppState :=
  match answer with
  | None => ret st
  | Some newTitle =>
      if negb (truthy newTitle) || negb (truthy (trim newTitle)) then ret st
      else
        let updatedTitle := trim newTitle in
        saveConversationToFirestore cl (with_title conv updatedTitle) ;;
        ret (setConversations
               (map (fun c => if str_eqb (id c) (id conv)
                              then with_title c updatedTitle else c)
                    (conversations st)) st)
  end.

(** [convId === currentConversationId]. *)
Definition is_current (cl : AppState) (convId : jsstring) : bool :=
  match currentConversationId cl with
  | Some i => str_eqb convId i
  | None => false
  end.

(** [prev.filter((c) => c.id !== convId)]. *)
Definition without (convId : jsstring) (prev : list Conversation)
  : list Conversation :=
  filter (fun c => negb (str_eqb (id c) convId)) prev.

Definition deleteChatById (cl : AppState) (convId : jsstring) (st : AppState)
  : M AppState :=
  let filtered := without convId (conversations st) in
  match user cl with
  | Some _ => deleteConversationFromFirestore cl convId
  | None => ret tt
  end ;;
  match filtered with
  | [] =>
      newConv <- createNewConversation 1 ;;
      match user cl with
      | Some _ => saveConversationToFirestore cl newConv
      | None => ret tt
      end ;;
      ret (setConversations [newConv]
             (setCurrentConversationId (Some (id newConv)) st))
  | first :: _ =>
      ret (setConversations filtered
             (if is_current cl convId
              then setCurrentConversationId (Some (id first)) st
              else st))
  end.

(** *** Sending

    [handleSend] is asynchronous: [handleSend_start] is the part that
    runs up to the [fetch] call, [handleSend_settle] the part that runs
    once the request has settled.  Both belong to one invocation and so
    share one closure [cl]. *)

Definition userMessage (displayText : jsstring) (t : Z) : Message :=
  {| role := RoleUser; text := displayText; audioUrl := None;
     timestamp := t |}.

Definition aiMessage (replyText : jsstring) (url : ObjectUrl) (t : Z)
  : Message :=
  {| role := RoleAi; text := replyText; audioUrl := Some url;
     timestamp := t |}.

(** The paperclip sign U+1F4CE as a surrogate pair, then a space. *)
Definition paperclip : jsstring := [55357; 56526; 32]%N.

Definition sendText (cl : AppState) (textToSend : option jsstring) : jsstring :=
  match textToSend with Some t => t | None => inputText cl end.

Definition displayText (cl : AppState) (text : jsstring) : jsstring :=
  if truthy (trim text) then text
  else match selectedFile cl with
       | Some f => paperclip ++ name f
       | None => []
       end.

Definition requestFor (cl : AppState) (text : jsstring) : Request :=
  match selectedFile cl with
  | Some f =>
      FileChat f (if truthy (trim text) then text
                  else lit "Summarize this file for me.")
  | None => VoiceChat text
  end.

(** The result tells whether a request went out. *)
Definition handleSend_start (cl : AppState) (textToSend : option jsstring)
    (st : AppState) : M (bool * AppState) :=
  let text := sendText cl textToSend in
  if negb (truthy (trim text))
     && match selectedFile cl with Some _ => false | None => true end
  then alert (lit "Please type a message or upload a file.") ;;
       ret (false, st)
  else
    match currentConversation cl with
    | None =>
        alert (lit "No active conversation. Create a new chat first.") ;;
        ret (false, st)
    | Some _ =>
        let shown := displayText cl text in
        st1 <- (if truthy shown
                then updateCurrentConversationMessages cl
                       (fun msgs => t <- now ;;
                                    ret (msgs ++ [userMessage shown t])) st
                else ret st) ;;
        fetch (requestFor cl text) ;;
        ret (true, setInputText [] (setLoading true st1))
    end.

(** The body of the [try] block from the point where [fetch] settles.
    The state it gives back holds the updates made before it returned
    or threw. *)
Definition handleSend_try (cl : AppState) (outcome : Outcome) (st : AppState)
  : M (Completion unit * AppState) :=
  match outcome with
  | Rejected message => ret (Threw message, st)
  | Responded status body =>
      let st := match selectedFile cl with
                | Some _ => setSelectedFile None st
                | None => st
                end in
      if negb (ok status) then
        let errMsg := lit "Server error " ++ String_of_N status ++ lit ": " in
        let errMsg :=
          match body with
          | BodyObject _ _ (Some e) => if truthy e then errMsg ++ e else errMsg
          | _ => errMsg
          end in
        alert errMsg ;; ret (Returned tt, st)
      else
        match body with
        | BodyMalformed message => ret (Threw message, st)
        | BodyObject replyText audioBase64 _ =>
            match audioBase64, replyText with
            | Some audio, Some reply =>
                if negb (truthy audio) || negb (truthy reply) then
                  alert (lit "Server did not return audioBase64 / replyText") ;;
                  ret (Returned tt, st)
                else
                  r <- base64ToAudioUrl audio ;;
                  match r with
                  | Threw message => ret (Threw message, st)
                  | Returned url =>
                      st' <- updateCurrentConversationMessages cl
                               (fun msgs => t <- now ;;
                                  ret (msgs ++ [aiMessage reply url t])) st ;;
                      ret (Returned tt, st')
                  end
            | _, _ =>
                alert (lit "Server did not return audioBase64 / replyText") ;;
                ret (Returned tt, st)
            end
        end
  end.

(** [try] body, then [catch], then [finally]. *)
Definition handleSend_settle (cl : AppState) (outcome : Outcome)
    (st : AppState) : M AppState :=
  r <- handleSend_try cl outcome st ;;
  match fst r with
  | Returned _ => ret tt
  | Threw message => alert (lit "Network error: " ++ message)
  end ;;
  ret (setLoading false (snd r)).

(** One whole invocation, no other event handled while the request is
    in flight. *)
Definition handleSend (cl : AppState) (textToSend : option jsstring)
    (outcome : Outcome) (st : AppState) : M AppState :=
  r <- handleSend_start cl textToSend st ;;
  if fst r then handleSend_settle cl outcome (snd r) else ret (snd r).

(** *** Sequences of store operations *)

Inductive StoreOp :=
| NewChat
| DeleteChat (convId : jsstring).

(** Each handler runs in the render of the state it updates. *)
Definition step (op : StoreOp) (st : AppState) : M AppState :=
  match op with
  | NewChat => handleNewChat st st
  | DeleteChat convId => deleteChatById st convId st
  end.

Fixpoint run (ops : list StoreOp) (st : AppState) : M AppState :=
  match ops with
  | [] => ret st
  | op :: r => st' <- step op st ;; run r st'
  end.

End Client.

(** *** Vocabulary of the statements *)

(** [c'] is [c] with one message [mk t] appended when [c] carries the id
    [target], and [c] itself otherwise. *)
Definition appended (target : jsstring) (mk : Z -> Message)
    (c c' : Conversation) : Prop :=
  if str_eqb (id c) target
  then exists t, c' = with_messages c (messages_or_empty c ++ [mk t])
  else c' = c.

(** The ways an exchange fails once the request is out: the request is
    rejected, the status is not a success, the body of a success cannot
    be read, a reply field is absent or empty, or the audio is not
    base64. *)
Inductive Failed : Outcome -> Prop :=
| NetworkError message : Failed (Rejected message)
| ErrorStatus status body : ok status = false -> Failed (Responded status body)
| UnreadableBody status message :
    ok status = true -> Failed (Responded status (BodyMalformed message))
| MissingField status replyText audioBase64 error :
    ok status = true ->
    field_truthy replyText = false \/ field_truthy audioBase64 = false ->
    Failed (Responded status (BodyObject replyText audioBase64 error))
| UndecodableAudio status replyText audio error :
    ok status = true ->
    Base64.atob audio = None ->
    Failed (Responded status (BodyObject replyText (Some audio) error)).

(** *** A concrete session, for evaluation *)

(** The [useState] defaults of [App]. *)
Definition initialState : AppState :=
  {| conversations := []; currentConversationId := None; inputText := [];
     loading := false; selectedFile := None; chatLoading := false;
     user := None |}.

Definition emptyWorld : World :=
  {| uuid_draws := 0; clock_reads := 0; alerts := []; firestore := [];
     network := []; blobs := [] |}.

(** A browser whose n-th id is [u] followed by n, whose clock starts at
    1000 and advances by one per reading. *)
Definition sampleBrowser : Browser :=
  {| crypto_randomUUID := Some (fun n => lit "u" ++ String_of_nat n);
     Date_now := fun n => (1000 + Z.of_nat n)%Z;
     atob_error_message := lit "The string to be decoded is not correctly encoded." |}.

(** The first render without a user, after its logged-out effect ran. *)
Definition mounted : AppState * World :=
  useEffect_loggedOut sampleBrowser initialState initialState emptyWorld.

(** A render with a signed-in user and the same store. *)
Definition signedIn : AppState :=
  {| conversations := conversations (fst mounted);
     currentConversationId := currentConversationId (fst mounted);
     inputText := []; loading := false; selectedFile := None;
     chatLoading := true; user := Some {| uid := lit "alice" |} |}.

(** Two remote documents, in creation order. *)
Definition remoteDocs : list Conversation :=
  [ {| id := lit "r1"; title := lit "Trip"; createdAt := 10%Z;
       messages := None |};
    {| id := lit "r2"; title := lit "Work"; createdAt := 20%Z;
       messages := Some [] |} ].

(** The mounted render with an active id that no conversation carries. *)
Definition strayActive : AppState :=
  setCurrentConversationId (Some (lit "zzz")) (fst mounted).

(** *** The remaining handlers and the session as a whole *)

Definition setUser (v : option User) (s : AppState) :=
  {| conversations := conversations s;
     currentConversationId := currentConversationId s;
     inputText := inputText s; loading := loading s;
     selectedFile := selectedFile s; chatLoading := chatLoading s;
     user := v |}.

Definition clearChatById (cl : AppState) (convId : jsstring) (st : AppState)
  : M AppState :=
  let updated :=
    map (fun c => if str_eqb (id c) convId then with_messages c [] else c)
        (conversations st) in
  match user cl with
  | Some _ =>
      match find (fun c => str_eqb (id c) convId) updated with
      | Some conv => saveConversationToFirestore cl conv
      | None => ret tt
      end
  | None => ret tt
  end ;;
  ret (if is_current cl convId
       then setInputText [] (setConversations updated st)
       else setConversations updated st).

(** [value.split("\n").length]: one more than the number of line feeds. *)
Definition lineCount (value : jsstring) : nat :=
  S (List.length (filter (N.eqb 10) value)).

(** Rows of the text area: [Math.max(2, Math.min(8, lineCount))]. *)
Definition nextRows (value : jsstring) : nat :=
  Nat.max 2 (Nat.min 8 (lineCount value)).

(** What can happen to a mounted [App]: the store operations, a click on
    the n-th listed conversation, clear and rename from its menu, a whole
    send, a snapshot delivered to the listener, and a change of the
    signed-in user reported by the identity provider. *)
Inductive Event :=
| Store (op : StoreOp)
| Select (n : nat)
| Clear (convId : jsstring)
| Rename (conv : Conversation) (answer : option jsstring)
| Send (textToSend : option jsstring) (outcome : Outcome)
| Snapshot (docs : list Conversation)
| AuthChanged (firebaseUser : option User).

Section Session.

Variable browser : Browser.

(** [onAuthStateChanged] callback followed by the effects that depend
    on [user]: signing out resets the store, signing in starts loading.
    Reporting no user while none is signed in changes no state, so no
    effect runs again. *)
Definition onAuthStateChanged (firebaseUser : option User) (st : AppState)
  : M AppState :=
  match firebaseUser, user st with
  | None, None => ret st
  | None, Some _ =>
      let st := setUser None st in
      useEffect_loggedOut browser st st
  | Some u, _ => ret (setChatLoading true (setUser (Some u) st))
  end.

Definition handleEvent (ev : Event) (st : AppState) : M AppState :=
  match ev with
  | Store op => step browser op st
  | Select n =>
      match nth_error (conversations st) n with
      | Some conv => ret (setCurrentConversationId (Some (id conv)) st)
      | None => ret st
      end
  | Clear convId => clearChatById st convId st
  | Rename conv answer => handleRenameChat st conv answer st
  | Send textToSend outcome => handleSend browser st textToSend outcome st
  | Snapshot docs =>
      match onSnapshot_listener browser st with
      | Some listener => listener docs st
      | None => ret st
      end
  | AuthChanged firebaseUser => onAuthStateChanged firebaseUser st
  end.

Fixpoint session (evs : list Event) (st : AppState) : M AppState :=
  match evs with
  | [] => ret st
  | ev :: r => st' <- handleEvent ev st ;; session r st'
  end.

End Session.

(** The active id names a conversation of the store. *)
Definition active_listed (st : AppState) : Prop :=
  exists c, In c (conversations st) /\ currentConversationId st = Some (id c).

(** The ids of the store are pairwise distinct and were all drawn from
    the id source [gen] of the browser. *)
Definition ids_fresh (gen : nat -> jsstring) (st : AppState) (w : World)
  : Prop :=
  NoDup (map id (conversations st))
  /\ forall c, In c (conversations st) ->
               exists n, n < uuid_draws w /\ id c = gen n.

(** What a handler that neither creates nor removes conversations keeps:
    the ids of the store in their order, the active id, the user, and
    the position of the id source. *)
Definition kept (st : AppState) (w : World) (r : AppState * World) : Prop :=
  map id (conversations (fst r)) = map id (conversations st)
  /\ currentConversationId (fst r) = currentConversationId st
  /\ user (fst r) = user st
  /\ uuid_draws (snd r) = uuid_draws w.

(** The events that sign a user in. *)
Definition signs_in (ev : Event) : bool :=
  match ev with AuthChanged (Some _) => true | _ => false end.

(** *** The remote collection as the calls leave it *)

(** [setDoc] under a key: the document with that id is replaced, or the
    new one joins the collection. *)
Definition upsert (key : jsstring) (conv : Conversation)
    (docs : list Conversation) : list Conversation :=
  if existsb (fun d => str_eqb (id d) key) docs
  then map (fun d => if str_eqb (id d) key then conv else d) docs
  else docs ++ [conv].

Definition applyCall (docs : list Conversation) (call : RemoteCall)
  : list Conversation :=
  match call with
  | SetDoc _ key conv => upsert key conv docs
  | DeleteDoc _ key => without key docs
  end.

(** The collection after a sequence of calls that all succeed. *)
Definition replay (calls : list RemoteCall) (docs : list Conversation)
  : list Conversation :=
  fold_left applyCall calls docs.

(** An event of the user on what is listed: no snapshot, no change of
    user, and a rename that names a conversation of the store. *)
Definition local_event (ev : Event) (st : AppState) : Prop :=
  match ev with
  | Snapshot _ | AuthChanged _ => False
  | Rename conv _ => In conv (conversations st)
  | _ => True
  end.

Fixpoint local_session (browser : Browser) (evs : list Event)
    (st : AppState) (w : World) : Prop :=
  match evs with
  | [] => True
  | ev :: r =>
      local_event ev st
      /\ local_session browser r (fst (handleEvent browser ev st w))
           (snd (handleEvent browser ev st w))
  end.

(** The remote calls a step issued, replayed on the store it started
    from, give the store it ended with. *)
Definition mirrored (st : AppState) (w : World) (r : AppState * World) : Prop :=
  exists calls,
    firestore (snd r) = firestore w ++ calls
    /\ replay calls (conversations st) = conversations (fst r).

(** A browser whose ids are [u], [uu], [uuu], ... *)
Definition tallyBrowser : Browser :=
  {| crypto_randomUUID := Some (fun n => repeat 117%N (S n));
     Date_now := fun n => (1000 + Z.of_nat n)%Z;
     atob_error_message := lit "The string to be decoded is not correctly encoded." |}.

(** A browser without [crypto.randomUUID] whose clock stands still. *)
Definition fallbackBrowser : Browser :=
  {| crypto_randomUUID := None;
     Date_now := fun _ => 1700000000000%Z;
     atob_error_message := lit "The string to be decoded is not correctly encoded." |}.

(** The first render in [tallyBrowser] after its logged-out effect, and
    the same store with a user signed in. *)
Definition tallyMounted : AppState * World :=
  useEffect_loggedOut tallyBrowser initialState initialState emptyWorld.

Definition tallySignedIn : AppState :=
  setUser (Some {| uid := lit "alice" |}) (fst tallyMounted).

(** The mounted render with a picked file. *)
Definition withFile : AppState :=
  setSelectedFile (Some {| name := lit "notes.png"; content := [1; 2; 3]%N |})
    (fst mounted).

(** Two chats, the second active; and the render in which the first was
    still the active one. *)
Definition twoChats : AppState :=
  fst (run sampleBrowser [NewChat] (fst mounted) (snd mounted)).

Definition firstActive : AppState :=
  setCurrentConversationId (Some (lit "u0")) twoChats.

End App.

(** ** The backend: text to reply and speech *)

Module Backend.

Import App.

(** What the language model call gives: a rejection, or a response whose
    first candidate text may be missing. *)
Inductive GeminiResult :=
| GeminiRejects (message : jsstring)
| GeminiResolves (text : option jsstring).

(** What the speech synthesis call gives: a rejection, a response that
    is not ok with its body as text, or the audio bytes. *)
Inductive TtsResult :=
| TtsRejects (message : jsstring)
| TtsNotOk (errText : jsstring)
| TtsOk (audio : list N).

(** What the speech recognition call gives. *)
Inductive SttResult :=
| SttRejects (message : jsstring)
| SttResolves (transcript : option jsstring).

Record Reply := { replyText : jsstring; audioBase64 : jsstring }.

Inductive ResponseBody :=
| ErrorBody (error : jsstring)
| ReplyBody (reply : Reply)
| TranscriptBody (transcript : jsstring) (reply : Reply).

Record Response := { status : N; body : ResponseBody }.

(** The file multer stored for the request. *)
Record Upload := { path : jsstring; mimetype : jsstring }.

Section Services.

(** The services, each as the answer it gives to a request, and the
    two ways a stored upload is read (each may throw). *)
Variable generateContent : jsstring -> GeminiResult.
Variable textToSpeech : jsstring -> TtsResult.
Variable recognize : list N -> SttResult.
Variable readPdfText : jsstring -> Completion jsstring.
Variable readUtf8 : jsstring -> Completion jsstring.

Definition processTextWithAI (userText : jsstring) : Completion Reply :=
  match generateContent userText with
  | GeminiRejects message => Threw message
  | GeminiResolves text =>
      match text with
      | Some reply =>
          if truthy reply then
            match textToSpeech reply with
            | TtsRejects message => Threw message
            | TtsNotOk errText =>
                Threw (lit "ElevenLabs TTS failed: " ++ errText)
            | TtsOk audio =>
                match audio with
                | [] => Threw (lit "Empty audio from ElevenLabs")
                | _ :: _ =>
                    Returned {| replyText := reply;
                                audioBase64 := Base64.encode audio |}
                end
            end
          else Threw (lit "No reply from Gemini")
      | None => Threw (lit "No reply from Gemini")
      end
  end.

Definition respond (r : Completion Reply) : Response :=
  match r with
  | Returned reply => {| status := 200; body := ReplyBody reply |}
  | Threw message => {| status := 500; body := ErrorBody message |}
  end.

(** POST /api/voice-chat with the [text] field of the JSON body. *)
Definition voiceChat (text : option jsstring) : Response :=
  match text with
  | Some userText =>
      if truthy userText then respond (processTextWithAI userText)
      else {| status := 400; body := ErrorBody (lit "No text provided") |}
  | None => {| status := 400; body := ErrorBody (lit "No text provided") |}
  end.

(** POST /api/voice-chat-audio with the uploaded audio, if any. *)
Definition voiceChatAudio (file : option (list N)) : Response :=
  match file with
  | None => {| status := 400; body := ErrorBody (lit "No audio file received") |}
  | Some audioBuffer =>
      match recognize audioBuffer with
      | SttRejects message => {| status := 500; body := ErrorBody message |}
      | SttResolves t =>
          let transcript := match t with
                            | Some s => if truthy s then s else []
                            | None => []
                            end in
          if truthy transcript then
            match processTextWithAI transcript with
            | Returned reply =>
                {| status := 200; body := TranscriptBody transcript reply |}
            | Threw message => {| status := 500; body := ErrorBody message |}
            end
          else {| status := 400; body := ErrorBody (lit "No speech detected") |}
      end
  end.

Definition newline : jsstring := [10%N].

(** The prompt built from the text of the document and the question. *)
Definition finalPrompt (extractedText userQuestion : jsstring) : jsstring :=
  newline ++ lit "Here is a document:" ++ newline ++ extractedText
  ++ newline ++ newline ++ lit "User question:" ++ newline ++ userQuestion
  ++ newline.

(** POST /api/file-chat with the stored upload, if any, and the
    [question] field.  The second component lists the paths removed with
    [unlinkSync], in order (the removal of a stored upload is taken to
    succeed). *)
Definition fileChat (file : option Upload) (question : option jsstring)
  : Response * list jsstring :=
  match file with
  | None => ({| status := 400; body := ErrorBody (lit "No file uploaded") |}, [])
  | Some f =>
      let extracted :=
        if str_eqb (mimetype f) (lit "application/pdf")
        then Some (readPdfText (path f))
        else if str_eqb (mimetype f) (lit "text/plain")
        then Some (readUtf8 (path f))
        else None in
      match extracted with
      | None =>
          ({| status := 400; body := ErrorBody (lit "Unsupported file type") |},
           [path f])
      | Some (Threw message) =>
          ({| status := 500; body := ErrorBody message |}, [])
      | Some (Returned extractedText) =>
          let userQuestion :=
            match question with
            | Some q => if truthy q then q else lit "Summarize this document"
            | None => lit "Summarize this document"
            end in
          (respond (processTextWithAI (finalPrompt extractedText userQuestion)),
           [path f])
      end
  end.

(** *** The client against this backend *)

(** What the client's [fetch] and [response.json()] make of a
    response. *)
Definition deliver (r : Response) : Outcome :=
  Responded (status r)
    match body r with
    | ErrorBody e => BodyObject None None (Some e)
    | ReplyBody reply =>
        BodyObject (Some (replyText reply)) (Some (audioBase64 reply)) None
    | TranscriptBody _ reply =>
        BodyObject (Some (replyText reply)) (Some (audioBase64 reply)) None
    end.

(** How a file picked in the browser arrives as a stored upload. *)
Variable stored : File -> Upload.

Definition serve (req : Request) : Response :=
  match req with
  | VoiceChat text => voiceChat (Some text)
  | FileChat file question =>
      fst (fileChat (Some (stored file)) (Some question))
  end.

(** One send of the client answered by this backend. *)
Definition roundTrip (browser : Browser) (cl : AppState)
    (textToSend : option jsstring) (st : AppState) : M AppState :=
  handleSend browser cl textToSend
    (deliver (serve (requestFor cl (sendText cl textToSend)))) st.

End Services.

(** *** Sample services, for evaluation *)

Definition answering : jsstring -> GeminiResult :=
  fun _ => GeminiResolves (Some (lit "yo")).

Definition speaking : jsstring -> TtsResult :=
  fun _ => TtsOk [77; 97; 110]%N.

Definition overQuota : jsstring -> TtsResult :=
  fun _ => TtsNotOk (lit "quota").

Definition deaf : list N -> SttResult := fun _ => SttResolves None.

Definition readable : jsstring -> Completion jsstring :=
  fun _ => Returned (lit "doc").

Definition storedAsPng (f : File) : Upload :=
  {| path := lit "uploads/1"; mimetype := lit "image/png" |}.

Definition storedAsText (f : File) : Upload :=
  {| path := lit "uploads/1"; mimetype := lit "text/plain" |}.

End Backend.

(** ** Facts about the base64 codec *)

Import Base64.

Module Base64Facts.

Local Open Scope N_scope.

(** Linear arithmetic with division and remainder by constants. *)
Ltac div_lia := zify; Z.to_euclidean_division_equations; lia.

(** Lists taken three elements at a time, as [encode] does. *)
Lemma list_ind3 (A : Type) (P : list A -> Prop) :
  P [] -> (forall a, P [a]) -> (forall a b, P [a; b]) ->
  (forall a b c r, P r -> P (a :: b :: c :: r)) ->
  forall l, P l.
Proof.
  intros H0 H1 H2 H3.
  assert (H : forall l, P l /\ (forall a, P (a :: l)) /\ (forall a b, P (a :: b :: l))).
  { induction l as [|x l [IH0 [IH1 IH2]]].
    - auto.
    - repeat split; auto. }
  intro l. apply H.
Qed.

Lemma encode_shape bytes :
  encode bytes =
  map alphabet (sextets_of_bytes bytes) ++ repeat pad (padding_of_bytes bytes).
Proof.
  induction bytes as [| a | a b | a b c r IH] using list_ind3; try reflexivity.
  cbn [encode sextets_of_bytes padding_of_bytes map app]. now rewrite IH.
Qed.

Lemma padding_of_bytes_le bytes : (padding_of_bytes bytes <= 2)%nat.
Proof.
  induction bytes as [| a | a b | a b c r IH] using list_ind3; cbn [padding_of_bytes]; lia.
Qed.

Lemma sextets_of_bytes_bound bytes :
  Forall (fun b => b < 256) bytes -> Forall (fun s => s < 64) (sextets_of_bytes bytes).
Proof.
  induction bytes as [| a | a b | a b c r IH] using list_ind3; intros H.
  - constructor.
  - inversion_clear H. cbn [sextets_of_bytes]. repeat constructor; div_lia.
  - inversion_clear H as [|? ? Ha H']. inversion_clear H' as [|? ? Hb _].
    cbn [sextets_of_bytes]. repeat constructor; div_lia.
  - inversion_clear H as [|? ? Ha H']. inversion_clear H' as [|? ? Hb H''].
    inversion_clear H'' as [|? ? Hc Hr].
    cbn [sextets_of_bytes]. repeat constructor; try div_lia. now apply IH.
Qed.

Lemma bytes_of_sextets_of_bytes bytes :
  Forall (fun b => b < 256) bytes ->
  bytes_of_sextets (sextets_of_bytes bytes) = bytes.
Proof.
  induction bytes as [| a | a b | a b c r IH] using list_ind3; intros H.
  - reflexivity.
  - inversion_clear H. cbn [sextets_of_bytes bytes_of_sextets]. f_equal. div_lia.
  - inversion_clear H as [|? ? Ha H']. inversion_clear H' as [|? ? Hb _].
    cbn [sextets_of_bytes bytes_of_sextets]. repeat f_equal; div_lia.
  - inversion_clear H as [|? ? Ha H']. inversion_clear H' as [|? ? Hb H''].
    inversion_clear H'' as [|? ? Hc Hr].
    cbn [sextets_of_bytes bytes_of_sextets]. rewrite IH by assumption.
    repeat f_equal; div_lia.
Qed.


Lemma sextet_of_alphabet i : i < 64 -> sextet_of (alphabet i) = Some i.
Proof.
  intro Hi. unfold alphabet.
  destruct (N.ltb_spec i 26); [|destruct (N.ltb_spec i 52);
    [|destruct (N.ltb_spec i 62); [|destruct (N.eqb_spec i 62)]]];
  unfold sextet_of;
  repeat match goal with
  | |- context [?a <=? ?b] => destruct (N.leb_spec a b); try lia
  | |- context [?a =? ?b] => destruct (N.eqb_spec a b); try lia
  end; cbn [andb]; try (f_equal; lia).
Qed.

Lemma alphabet_plain i :
  i < 64 -> isAsciiWhitespace (alphabet i) = false /\ (alphabet i =? pad) = false.
Proof.
  intro Hi. unfold alphabet, isAsciiWhitespace, pad.
  destruct (N.ltb_spec i 26); [|destruct (N.ltb_spec i 52);
    [|destruct (N.ltb_spec i 62); [|destruct (N.eqb_spec i 62)]]];
  repeat match goal with
  | |- context [?a =? ?b] => destruct (N.eqb_spec a b); try lia
  end; split; reflexivity.
Qed.

Lemma sextets_map_alphabet ss :
  Forall (fun s => s < 64) ss -> sextets (map alphabet ss) = Some ss.
Proof.
  induction 1 as [|s ss Hs _ IH]; [reflexivity|].
  cbn [map sextets]. now rewrite (sextet_of_alphabet _ Hs), IH.
Qed.

Lemma filter_whitespace_encoded ss k :
  Forall (fun s => s < 64) ss ->
  filter (fun c => negb (isAsciiWhitespace c)) (map alphabet ss ++ repeat pad k)
  = map alphabet ss ++ repeat pad k.
Proof.
  induction 1 as [|s ss Hs _ IH].
  - cbn [map app]. induction k as [|k IHk]; [reflexivity|].
    cbn [repeat filter]. change (isAsciiWhitespace pad) with false.
    cbn [negb]. now rewrite IHk.
  - cbn [map app filter]. destruct (alphabet_plain _ Hs) as [-> _].
    cbn [negb]. now rewrite IH.
Qed.

Lemma strip_padding_encoded ss k :
  Forall (fun s => s < 64) ss -> (k <= 2)%nat ->
  strip_padding (map alphabet ss ++ repeat pad k) = map alphabet ss.
Proof.
  intros Hss Hk. induction Hss as [|s ss Hs _ IH].
  - destruct k as [|[|[|k]]]; try reflexivity. lia.
  - cbn [map app]. destruct (alphabet_plain _ Hs) as [_ Hp].
    cbn [strip_padding]. rewrite Hp. cbn [andb].
    destruct (map alphabet ss ++ repeat pad k) as [|d [|e r]] eqn:E.
    + destruct ss; [reflexivity|discriminate].
    + now rewrite <- IH.
    + now rewrite <- IH.
Qed.

Lemma sextets_of_bytes_length bytes :
  (N.of_nat (List.length (sextets_of_bytes bytes) + padding_of_bytes bytes) mod 4 = 0)
  /\ N.of_nat (List.length (sextets_of_bytes bytes)) mod 4 <> 1.
Proof.
  induction bytes as [| a | a b | a b c r [IH1 IH2]] using list_ind3;
    try (split; [reflexivity | discriminate]).
  cbn [sextets_of_bytes padding_of_bytes List.length].
  split.
  - replace (N.of_nat (S (S (S (S (List.length (sextets_of_bytes r))))) + padding_of_bytes r))
      with (N.of_nat (List.length (sextets_of_bytes r) + padding_of_bytes r) + 1 * 4) by lia.
    now rewrite N.Div0.mod_add.
  - replace (N.of_nat (S (S (S (S (List.length (sextets_of_bytes r)))))))
      with (N.of_nat (List.length (sextets_of_bytes r)) + 1 * 4) by lia.
    now rewrite N.Div0.mod_add.
Qed.

(** [atob] undoes [encode] on byte sequences. *)
Lemma atob_encode bytes :
  Forall (fun b => b < 256) bytes -> atob (encode bytes) = Some bytes.
Proof.
  intro Hb. unfold atob. rewrite encode_shape.
  pose proof (sextets_of_bytes_bound _ Hb) as Hs.
  pose proof (padding_of_bytes_le bytes) as Hk.
  destruct (sextets_of_bytes_length bytes) as [L0 L1].
  rewrite (filter_whitespace_encoded _ (padding_of_bytes bytes) Hs).
  rewrite length_app, length_map, repeat_length, L0.
  cbn [N.eqb]. rewrite (strip_padding_encoded _ _ Hs Hk), length_map.
  destruct (N.eqb_spec (N.of_nat (List.length (sextets_of_bytes bytes)) mod 4) 1) as [E|_];
    [contradiction|].
  now rewrite (sextets_map_alphabet _ Hs), (bytes_of_sextets_of_bytes _ Hb).
Qed.

End Base64Facts.

(** ** Facts about strings *)

Module JSFacts.

Lemma str_eqb_refl a : str_eqb a a = true.
Proof.
  induction a as [|x a IH]; [reflexivity|].
  cbn [str_eqb]. now rewrite N.eqb_refl, IH.
Qed.

Lemma str_eqb_eq a b : str_eqb a b = true <-> a = b.
Proof.
  split; [|intros ->; apply str_eqb_refl].
  revert b. induction a as [|x a IH]; intros [|y b] H; try discriminate; auto.
  cbn [str_eqb] in H. apply andb_true_iff in H as [Hx Hr].
  apply N.eqb_eq in Hx. f_equal; auto.
Qed.

Lemma str_eqb_neq a b : str_eqb a b = false <-> a <> b.
Proof.
  rewrite <- str_eqb_eq. destruct (str_eqb a b); intuition congruence.
Qed.

Lemma trimStart_nil_iff s : trimStart s = [] <-> forallb isWhiteSpace s = true.
Proof.
  induction s as [|c s IH]; [easy|].
  cbn [trimStart forallb]. destruct (isWhiteSpace c); cbn [andb]; [exact IH|easy].
Qed.

(** What [trimStart] leaves does not begin with whitespace. *)
Lemma trimStart_head s c r : trimStart s = c :: r -> isWhiteSpace c = false.
Proof.
  induction s as [|d s IH]; [discriminate|].
  cbn [trimStart]. destruct (isWhiteSpace d) eqn:E; [exact IH|].
  intros [= -> _]. exact E.
Qed.

(** A string trims to the empty string exactly when it is made of
    whitespace only (the empty string included). *)
Lemma trim_nil_iff s : trim s = [] <-> forallb isWhiteSpace s = true.
Proof.
  unfold trim, trimEnd. split.
  - intro H. apply trimStart_nil_iff.
    destruct (trimStart s) as [|c r] eqn:E; [reflexivity|].
    assert (H' : trimStart (rev (c :: r)) = []).
    { destruct (trimStart (rev (c :: r))) as [|d l]; [reflexivity|].
      cbn [rev] in H. now destruct (rev l). }
    apply trimStart_nil_iff in H'. rewrite forallb_forall in H'.
    pose proof (trimStart_head _ _ _ E) as Hc.
    rewrite (H' c) in Hc; [discriminate|]. apply in_rev. rewrite rev_involutive. now left.
  - intro H. apply trimStart_nil_iff in H. now rewrite H.
Qed.

Lemma truthy_trim s : truthy (trim s) = negb (forallb isWhiteSpace s).
Proof.
  destruct (forallb isWhiteSpace s) eqn:E.
  - apply trim_nil_iff in E. now rewrite E.
  - destruct (trim s) eqn:T; [|reflexivity].
    apply trim_nil_iff in T. congruence.
Qed.

End JSFacts.

(** ** Facts about the client *)

Import App.

Module AppFacts.

Import JSFacts Base64Facts.
Local Open Scope app_scope.

Section Client.

Variable browser : Browser.

(** *** The default conversation *)

Lemma createNewConversation_default index w :
  title (fst (createNewConversation browser index w)) = lit "New Chat " ++ String_of_nat index
  /\ messages (fst (createNewConversation browser index w)) = Some [].
Proof.
  unfold createNewConversation, bind, ret.
  destruct (crypto_randomUUID browser); split; reflexivity.
Qed.

(** *** Creating and deleting *)

Lemma handleNewChat_result cl st w :
  let c := fst (createNewConversation browser (List.length (conversations cl) + 1) w) in
  conversations (fst (handleNewChat browser cl st w)) = conversations st ++ [c]
  /\ currentConversationId (fst (handleNewChat browser cl st w)) = Some (id c).
Proof.
  unfold handleNewChat, bind.
  destruct (createNewConversation browser (List.length (conversations cl) + 1) w) as [c w1].
  cbn [fst]. destruct (saveConversationToFirestore cl c w1). now split.
Qed.

Lemma deleteChatById_some_remain cl convId st w first rest :
  without convId (conversations st) = first :: rest ->
  conversations (fst (deleteChatById browser cl convId st w)) = first :: rest
  /\ currentConversationId (fst (deleteChatById browser cl convId st w)) =
     (if is_current cl convId then Some (id first) else currentConversationId st).
Proof.
  intro E. unfold deleteChatById, bind. rewrite E.
  destruct (match user cl with
            | Some _ => deleteConversationFromFirestore cl convId
            | None => ret tt end w) as [u w1].
  cbn [ret fst]. destruct (is_current cl convId); now split.
Qed.

Lemma deleteChatById_none_remain cl convId st w :
  without convId (conversations st) = [] ->
  exists w1,
    let fresh := fst (createNewConversation browser 1 w1) in
    conversations (fst (deleteChatById browser cl convId st w)) = [fresh]
    /\ currentConversationId (fst (deleteChatById browser cl convId st w)) = Some (id fresh).
Proof.
  intro E. unfold deleteChatById, bind. rewrite E.
  destruct (match user cl with
            | Some _ => deleteConversationFromFirestore cl convId
            | None => ret tt end w) as [u w1].
  exists w1. destruct (createNewConversation browser 1 w1) as [c w2].
  destruct (match user cl with
            | Some _ => saveConversationToFirestore cl c
            | None => ret tt end w2) as [u' w3].
  now split.
Qed.

Lemma step_nonempty op st w : conversations (fst (step browser op st w)) <> [].
Proof.
  destruct op as [|convId]; cbn [step].
  - destruct (handleNewChat_result st st w) as [-> _].
    now destruct (conversations st).
  - destruct (without convId (conversations st)) as [|first rest] eqn:E.
    + destruct (deleteChatById_none_remain st _ _ w E) as [w1 [-> _]]. discriminate.
    + destruct (deleteChatById_some_remain st _ _ w _ _ E) as [-> _]. discriminate.
Qed.

Lemma run_nonempty ops st w :
  ops <> [] \/ conversations st <> [] ->
  conversations (fst (run browser ops st w)) <> [].
Proof.
  revert st w. induction ops as [|op ops IH]; intros st w H.
  - destruct H as [H|H]; [congruence|exact H].
  - cbn [run]. unfold bind.
    pose proof (step_nonempty op st w) as Hs.
    destruct (step browser op st w) as [st1 w1]. apply IH. now right.
Qed.

Lemma without_single c : without (id c) [c] = [].
Proof. unfold without. cbn [filter]. now rewrite str_eqb_refl. Qed.

(** C1. Whatever sequence of new-chat and delete operations runs, the
    store is not empty afterwards (provided it was not empty before, or
    at least one operation ran); and in the state so reached, deleting
    the only conversation left gives a store of exactly one fresh
    default conversation, titled "New Chat 1", without messages, whose
    id becomes the active one. *)
Theorem store_never_empty ops st w :
  ops <> [] \/ conversations st <> [] ->
  let st' := fst (run browser ops st w) in
  conversations st' <> []
  /\ forall c w',
       conversations st' = [c] ->
       exists fresh,
         conversations (fst (deleteChatById browser st' (id c) st' w')) = [fresh]
         /\ title fresh = lit "New Chat 1"
         /\ messages fresh = Some []
         /\ currentConversationId (fst (deleteChatById browser st' (id c) st' w'))
            = Some (id fresh).
Proof.
  intros H st'. split; [now apply run_nonempty|].
  intros c w' Hc.
  assert (E : without (id c) (conversations st') = [])
    by (rewrite Hc; apply without_single).
  destruct (deleteChatById_none_remain st' _ _ w' E) as [w1 [H1 H2]].
  destruct (createNewConversation_default 1 w1) as [Ht Hm].
  eexists. repeat split; eassumption.
Qed.

Lemma is_current_false cl convId :
  currentConversationId cl <> Some convId -> is_current cl convId = false.
Proof.
  unfold is_current. destruct (currentConversationId cl) as [i|]; [|reflexivity].
  intro H. apply str_eqb_neq. congruence.
Qed.

(** C10. Deleting a conversation whose id is not the active one, when at
    least one conversation remains, leaves the active id as it was and
    keeps exactly the records whose id differs from the deleted one, each
    unchanged and in their order; nothing else in the state changes. *)
Theorem delete_other_keeps_rest cl convId st w :
  currentConversationId cl <> Some convId ->
  without convId (conversations st) <> [] ->
  let st' := fst (deleteChatById browser cl convId st w) in
  currentConversationId st' = currentConversationId st
  /\ st' = setConversations (without convId (conversations st)) st
  /\ (forall c, In c (conversations st') <->
                In c (conversations st) /\ id c <> convId).
Proof.
  intros Hcur Hne st'. subst st'.
  destruct (without convId (conversations st)) as [|first rest] eqn:E;
    [congruence|].
  destruct (deleteChatById_some_remain cl _ _ w _ _ E) as [Hc Hi].
  rewrite (is_current_false _ _ Hcur) in Hi.
  split; [exact Hi|]. split.
  - unfold deleteChatById, bind. rewrite E, (is_current_false _ _ Hcur).
    now destruct (match user cl with
                  | Some _ => deleteConversationFromFirestore cl convId
                  | None => ret tt end w).
  - intro c. rewrite Hc, <- E. unfold without. rewrite filter_In.
    rewrite negb_true_iff, str_eqb_neq. reflexivity.
Qed.

Lemma run_new_chats k : forall st w,
  map title (conversations (fst (run browser (repeat NewChat k) st w))) =
  map title (conversations st)
  ++ map (fun j => lit "New Chat " ++ String_of_nat (List.length (conversations st) + j))
         (seq 1 k).
Proof.
  induction k as [|k IH]; intros st w.
  - cbn. now rewrite app_nil_r.
  - cbn [repeat run step]. unfold bind.
    destruct (handleNewChat_result st st w) as [Hc _].
    pose proof (createNewConversation_default
                  (List.length (conversations st) + 1) w) as [Ht _].
    destruct (handleNewChat browser st st w) as [st1 w1]. cbn [fst] in Hc.
    rewrite IH, Hc, map_app, length_app, <- app_assoc. f_equal.
    cbn [map List.length seq app]. rewrite Ht. f_equal.
    rewrite <- (seq_shift k 1), map_map. apply map_ext. intro j.
    do 2 f_equal. lia.
Qed.

(** C8 (amended). A new chat is appended with the title "New Chat N"
    where N is one more than the number of conversations the store holds
    when it is created; in a run of new chats with no deletion in
    between, started from a store of n conversations, the j-th one
    created is titled "New Chat (n + j)". *)
Theorem new_chat_title_counts_store cl st w k :
  (exists c,
      conversations (fst (handleNewChat browser cl st w)) = conversations st ++ [c]
      /\ title c = lit "New Chat " ++ String_of_nat (List.length (conversations cl) + 1)
      /\ messages c = Some []
      /\ currentConversationId (fst (handleNewChat browser cl st w)) = Some (id c))
  /\ map title (conversations (fst (run browser (repeat NewChat k) st w))) =
     map title (conversations st)
     ++ map (fun j => lit "New Chat "
                      ++ String_of_nat (List.length (conversations st) + j))
            (seq 1 k).
Proof.
  split; [|apply run_new_chats].
  destruct (handleNewChat_result cl st w) as [Hc Hi].
  destruct (createNewConversation_default
              (List.length (conversations cl) + 1) w) as [Ht Hm].
  eexists. repeat split; eassumption.
Qed.

(** *** The audio codec adapter *)

Lemma map_mod_256 bytes :
  Forall (fun b => (b < 256)%N) bytes -> map (fun c => (c mod 256)%N) bytes = bytes.
Proof.
  induction 1 as [|b bytes Hb _ IH]; [reflexivity|].
  cbn [map]. now rewrite IH, N.mod_small.
Qed.

(** C9. Decoding the base64 encoding of a byte sequence registers a blob
    holding exactly those bytes (typed audio/mpeg), and returns the
    handle under which the blob is stored. *)
Theorem base64ToAudioUrl_roundtrip bytes w :
  Forall (fun b => (b < 256)%N) bytes ->
  exists url w',
    base64ToAudioUrl browser (encode bytes) w = (Returned url, w')
    /\ nth_error (blobs w') url
       = Some {| blob_bytes := bytes; blob_type := lit "audio/mpeg" |}.
Proof.
  intro Hb. unfold base64ToAudioUrl. rewrite (atob_encode _ Hb).
  rewrite (map_mod_256 _ Hb). unfold bind, createObjectURL, ret.
  do 2 eexists. split; [reflexivity|].
  cbn [blobs]. rewrite nth_error_app2, Nat.sub_diag by lia. reflexivity.
Qed.

(** *** Remote snapshots *)

Lemma createNewConversation_world index w :
  firestore (snd (createNewConversation browser index w)) = firestore w
  /\ alerts (snd (createNewConversation browser index w)) = alerts w
  /\ blobs (snd (createNewConversation browser index w)) = blobs w.
Proof.
  unfold createNewConversation, bind, ret.
  destruct (crypto_randomUUID browser); repeat split; reflexivity.
Qed.

Lemma find_id_is_some prev docs c :
  find (id_is prev) docs = Some c -> In c docs /\ prev = Some (id c).
Proof.
  intro H. apply find_some in H as [Hin Hid]. split; [exact Hin|].
  unfold id_is in Hid. destruct prev as [i|]; [|discriminate].
  apply str_eqb_eq in Hid. now rewrite Hid.
Qed.

Lemma find_id_is_none prev docs :
  find (id_is prev) docs = None ->
  forall c, In c docs -> prev <> Some (id c).
Proof.
  intros H c Hin E. pose proof (find_none _ _ H c Hin) as Hc.
  rewrite E in Hc. cbn [id_is] in Hc. now rewrite str_eqb_refl in Hc.
Qed.

(** C4. A snapshot carrying a non-empty list of documents replaces the
    local collection by exactly that list; the active id stays when some
    document carries it and becomes the id of the first document
    otherwise.  Nothing is written remotely. *)
Theorem snapshot_replaces_store cl listener docs st w :
  onSnapshot_listener browser cl = Some listener ->
  docs <> [] ->
  let st' := fst (listener docs st w) in
  conversations st' = docs
  /\ (forall i, currentConversationId st = Some i ->
                (exists c, In c docs /\ id c = i) ->
                currentConversationId st' = Some i)
  /\ ((forall c, In c docs -> currentConversationId st <> Some (id c)) ->
      currentConversationId st' = option_map id (hd_error docs))
  /\ snd (listener docs st w) = w.
Proof.
  unfold onSnapshot_listener. destruct (user cl) as [u|]; [|discriminate].
  intros [= <-] Hne. destruct docs as [|first rest]; [congruence|].
  cbn [fst snd ret conversations setConversations setCurrentConversationId
       currentConversationId setChatLoading hd_error option_map].
  repeat split.
  - intros i Hi [c [Hin Hc]]. rewrite Hi.
    destruct (find (id_is (Some i)) (first :: rest)) eqn:F; [reflexivity|].
    exfalso. apply (find_id_is_none _ _ F c Hin). now rewrite Hc.
  - intro Hnone.
    destruct (find (id_is (currentConversationId st)) (first :: rest)) eqn:F;
      [|reflexivity].
    apply find_id_is_some in F as [Hin Hp]. now apply Hnone in Hin.
Qed.

(** C5. A snapshot carrying no document puts one fresh default
    conversation ("New Chat 1", no messages) in the store as its only
    element, makes it active, and issues one remote write of it under the
    signed-in user. *)
Theorem empty_snapshot_self_heals cl listener st w :
  onSnapshot_listener browser cl = Some listener ->
  let st' := fst (listener [] st w) in
  let w' := snd (listener [] st w) in
  exists fresh u,
    conversations st' = [fresh]
    /\ title fresh = lit "New Chat 1"
    /\ messages fresh = Some []
    /\ currentConversationId st' = Some (id fresh)
    /\ user cl = Some u
    /\ firestore w' = firestore w ++ [SetDoc (uid u) (id fresh) fresh].
Proof.
  unfold onSnapshot_listener. destruct (user cl) as [u|] eqn:U; [|discriminate].
  intros [= <-]. cbn zeta. unfold bind.
  destruct (createNewConversation_default 1 w) as [Ht Hm].
  destruct (createNewConversation_world 1 w) as [Hf _].
  destruct (createNewConversation browser 1 w) as [c w1]. cbn [fst snd] in *.
  unfold saveConversationToFirestore. rewrite U.
  exists c, u. cbn. rewrite Hf. repeat split; assumption.
Qed.

(** *** Changing the messages of the shown conversation *)

Lemma mapM_pointwise {A B} (f : A -> M B) (g : A -> B) l w :
  (forall a w0, f a w0 = (g a, w0)) -> mapM f l w = (map g l, w).
Proof.
  intro H. induction l as [|a l IH]; [reflexivity|].
  cbn [mapM map]. unfold bind. now rewrite H, IH.
Qed.

(** The store after an update is the image of the store under the
    callback of [prev.map]; no other piece of state changes. *)
Lemma updateCurrentConversationMessages_state cl updater st w cur :
  currentConversation cl = Some cur ->
  fst (updateCurrentConversationMessages cl updater st w)
  = setConversations
      (fst (mapM (fun c => if str_eqb (id c) (id cur)
                           then ms <- updater (messages_or_empty c) ;;
                                ret (with_messages c ms)
                           else ret c) (conversations st) w)) st.
Proof.
  intro H. unfold updateCurrentConversationMessages. rewrite H.
  unfold bind at 1.
  destruct (mapM _ (conversations st) w) as [updated w1]. cbn [fst].
  unfold bind, saveConversationToFirestore.
  destruct (user cl); [destruct (find _ updated)|]; reflexivity.
Qed.

Lemma updateCurrentConversationMessages_no_current cl updater st w :
  currentConversation cl = None ->
  updateCurrentConversationMessages cl updater st w = (st, w).
Proof.
  intro H. unfold updateCurrentConversationMessages. now rewrite H.
Qed.

Lemma updateCurrentConversationMessages_pure cl f st w cur :
  currentConversation cl = Some cur ->
  conversations
    (fst (updateCurrentConversationMessages cl (fun ms => ret (f ms)) st w))
  = map (fun c => if str_eqb (id c) (id cur)
                  then with_messages c (f (messages_or_empty c)) else c)
        (conversations st).
Proof.
  intro H. rewrite (updateCurrentConversationMessages_state _ _ _ _ _ H).
  cbn [conversations setConversations].
  rewrite (mapM_pointwise _ (fun c => if str_eqb (id c) (id cur)
             then with_messages c (f (messages_or_empty c)) else c));
    [reflexivity|].
  intros c w0. now destruct (str_eqb (id c) (id cur)).
Qed.

Lemma currentConversation_present cl i :
  currentConversationId cl = Some i ->
  (exists c, In c (conversations cl) /\ id c = i) ->
  exists cur, currentConversation cl = Some cur /\ id cur = i.
Proof.
  intros Hi [c [Hin Hc]]. unfold currentConversation. rewrite Hi.
  destruct (find (id_is (Some i)) (conversations cl)) as [cur|] eqn:F.
  - exists cur. split; [reflexivity|].
    apply find_id_is_some in F as [_ [= ->]]. reflexivity.
  - exfalso. apply (find_id_is_none _ _ F c Hin). now rewrite Hc.
Qed.

Lemma currentConversation_fallback cl first rest :
  conversations cl = first :: rest ->
  (forall c, In c (conversations cl) -> currentConversationId cl <> Some (id c)) ->
  currentConversation cl = Some first.
Proof.
  intros Hl Hnone. unfold currentConversation.
  destruct (find (id_is (currentConversationId cl)) (conversations cl)) eqn:F.
  - apply find_id_is_some in F as [Hin Hp]. now apply Hnone in Hin.
  - now rewrite Hl.
Qed.

Lemma currentConversation_empty cl :
  conversations cl = [] -> currentConversation cl = None.
Proof. intro H. unfold currentConversation. now rewrite H. Qed.

(** C6 (amended). The message update resolves its target in the render
    it was made in: when a conversation there carries the active id, the
    transform is applied to every stored conversation with that id;
    when none does, the target is the first conversation of the render
    and the transform is applied to every stored conversation with its
    id; only when the render holds no conversation is the call a no-op.
    Stored conversations with another id are unchanged. *)
Theorem update_targets_active_or_first cl f st w :
  let st' := fst (updateCurrentConversationMessages cl
                    (fun ms => ret (f ms)) st w) in
  let applied_to target :=
    map (fun c => if str_eqb (id c) target
                  then with_messages c (f (messages_or_empty c)) else c)
        (conversations st) in
  (forall i, currentConversationId cl = Some i ->
             (exists c, In c (conversations cl) /\ id c = i) ->
             conversations st' = applied_to i)
  /\ (forall first rest,
        conversations cl = first :: rest ->
        (forall c, In c (conversations cl) ->
                   currentConversationId cl <> Some (id c)) ->
        conversations st' = applied_to (id first))
  /\ (conversations cl = [] ->
      updateCurrentConversationMessages cl (fun ms => ret (f ms)) st w = (st, w)).
Proof.
  cbn zeta. repeat split.
  - intros i Hi Hex.
    destruct (currentConversation_present _ _ Hi Hex) as [cur [Hcur <-]].
    now apply updateCurrentConversationMessages_pure.
  - intros first rest Hl Hnone.
    apply updateCurrentConversationMessages_pure.
    now apply (currentConversation_fallback _ _ rest).
  - intro He. apply updateCurrentConversationMessages_no_current.
    now apply currentConversation_empty.
Qed.

(** *** Renaming *)

(** C7 (amended). A prompt answer made of whitespace only (or empty)
    changes nothing; any other answer sets the title of the stored
    conversations carrying the renamed id to the answer with the
    whitespace at both ends removed, which is not empty, and leaves the
    other conversations as they were.  A dismissed prompt changes
    nothing. *)
Theorem rename_blank_noop_else_trimmed cl conv newTitle st w :
  handleRenameChat cl conv None st w = (st, w)
  /\ if forallb isWhiteSpace newTitle
     then handleRenameChat cl conv (Some newTitle) st w = (st, w)
     else trim newTitle <> []
          /\ conversations (fst (handleRenameChat cl conv (Some newTitle) st w))
             = map (fun c => if str_eqb (id c) (id conv)
                             then with_title c (trim newTitle) else c)
                   (conversations st).
Proof.
  split; [reflexivity|]. unfold handleRenameChat.
  rewrite (truthy_trim newTitle).
  destruct (forallb isWhiteSpace newTitle) eqn:E.
  - cbn [negb]. now rewrite orb_true_r.
  - assert (Ht : truthy newTitle = true) by (destruct newTitle; [discriminate|reflexivity]).
    rewrite Ht. cbn [negb orb]. split.
    + intro T. apply trim_nil_iff in T. congruence.
    + unfold bind. now destruct (saveConversationToFirestore _ _ w).
Qed.


(** *** Sending *)

Lemma bind_eq {A B} (m : M A) (k : A -> M B) w :
  bind m k w = k (fst (m w)) (snd (m w)).
Proof. unfold bind. now destruct (m w). Qed.

Lemma appended_id target mk c c' : appended target mk c c' -> id c' = id c.
Proof.
  unfold appended. destruct (str_eqb (id c) target).
  - now intros [t ->].
  - now intros ->.
Qed.

(** Appending a message stamped with the current time in each
    conversation carrying the target id. *)
Lemma mapM_cons {A B} (f : A -> M B) a l w :
  mapM f (a :: l) w =
  (fst (f a w) :: fst (mapM f l (snd (f a w))), snd (mapM f l (snd (f a w)))).
Proof.
  cbn [mapM]. unfold bind. destruct (f a w) as [b w1]. cbn [fst snd].
  now destruct (mapM f l w1).
Qed.

Lemma mapM_appended target mk l : forall w,
  let r := mapM (fun c => if str_eqb (id c) target
                          then ms <- (t <- now browser ;;
                                      ret (messages_or_empty c ++ [mk t])) ;;
                               ret (with_messages c ms)
                          else ret c) l w in
  Forall2 (appended target mk) l (fst r)
  /\ alerts (snd r) = alerts w /\ blobs (snd r) = blobs w
  /\ firestore (snd r) = firestore w /\ network (snd r) = network w.
Proof.
  induction l as [|c l IH]; intro w.
  - cbn. repeat split. constructor.
  - intro r. subst r. rewrite mapM_cons. cbn [fst snd].
    match goal with |- context [mapM ?F l ?w1] =>
      destruct (IH w1) as (H1 & H2 & H3 & H4 & H5) end.
    rewrite H2, H3, H4, H5. split.
    + constructor; [|exact H1]. unfold appended.
      destruct (str_eqb (id c) target); [|reflexivity]. now eexists.
    + destruct (str_eqb (id c) target); repeat split; reflexivity.
Qed.

(** Besides the callback's own effects an update only writes remotely. *)
Lemma updateCurrentConversationMessages_world cl updater st w cur :
  currentConversation cl = Some cur ->
  let m := mapM (fun c => if str_eqb (id c) (id cur)
                          then ms <- updater (messages_or_empty c) ;;
                               ret (with_messages c ms)
                          else ret c) (conversations st) w in
  alerts (snd (updateCurrentConversationMessages cl updater st w))
  = alerts (snd m)
  /\ blobs (snd (updateCurrentConversationMessages cl updater st w))
     = blobs (snd m).
Proof.
  intro H. cbn zeta. unfold updateCurrentConversationMessages. rewrite H.
  unfold bind, saveConversationToFirestore.
  destruct (mapM _ (conversations st) w) as [updated w1]. cbn [fst snd].
  destruct (user cl) as [u|]; [|now split].
  destruct (find _ updated); now split.
Qed.

Lemma updateCurrentConversationMessages_appended cl mk st w cur :
  currentConversation cl = Some cur ->
  let r := updateCurrentConversationMessages cl
             (fun msgs => t <- now browser ;; ret (msgs ++ [mk t])) st w in
  Forall2 (appended (id cur) mk) (conversations st) (conversations (fst r))
  /\ currentConversationId (fst r) = currentConversationId st
  /\ selectedFile (fst r) = selectedFile st
  /\ alerts (snd r) = alerts w /\ blobs (snd r) = blobs w.
Proof.
  intros H r. subst r.
  destruct (updateCurrentConversationMessages_world cl
              (fun msgs => t <- now browser ;; ret (msgs ++ [mk t])) st w cur H)
    as [-> ->].
  rewrite (updateCurrentConversationMessages_state _ _ _ _ _ H).
  cbn [conversations currentConversationId selectedFile setConversations].
  destruct (mapM_appended (id cur) mk (conversations st) w)
    as (H1 & H2 & H3 & _).
  repeat split; assumption.
Qed.

Lemma find_related (R : Conversation -> Conversation -> Prop) cur l l' :
  Forall2 R l l' ->
  (forall a b, R a b -> id b = id a) ->
  match find (id_is cur) l with
  | Some c => exists c', find (id_is cur) l' = Some c' /\ R c c'
  | None => find (id_is cur) l' = None
  end.
Proof.
  intros HF Hid. induction HF as [|a b l l' Hab _ IH]; [reflexivity|].
  cbn [find]. assert (E : id_is cur b = id_is cur a)
    by (unfold id_is; now rewrite (Hid _ _ Hab)).
  rewrite E. destruct (id_is cur a); [|exact IH].
  exists b. now split.
Qed.

(** The conversation shown follows a store whose records keep their id
    and their place. *)
Lemma currentConversation_related (R : Conversation -> Conversation -> Prop)
    st st' c :
  currentConversationId st' = currentConversationId st ->
  Forall2 R (conversations st) (conversations st') ->
  (forall a b, R a b -> id b = id a) ->
  currentConversation st = Some c ->
  exists c', currentConversation st' = Some c' /\ R c c'.
Proof.
  intros Hcur HF Hid. unfold currentConversation. rewrite Hcur.
  pose proof (find_related R (currentConversationId st) _ _ HF Hid) as Hf.
  destruct (find (id_is (currentConversationId st)) (conversations st)) as [c0|].
  - destruct Hf as [c' [-> Hr]]. intros [= <-]. now exists c'.
  - rewrite Hf. destruct HF as [|a b l l' Hab _]; [discriminate|].
    intros [= <-]. now exists b.
Qed.

Lemma truthy_trim_text s : truthy (trim s) = true -> truthy s = true.
Proof.
  rewrite truthy_trim. destruct s; [discriminate|reflexivity].
Qed.

Lemma displayText_truthy cl text :
  truthy (trim text) = true \/ selectedFile cl <> None ->
  truthy (displayText cl text) = true.
Proof.
  unfold displayText. destruct (truthy (trim text)) eqn:E.
  - intros _. now apply truthy_trim_text.
  - intros [H|H]; [discriminate|].
    destruct (selectedFile cl); [reflexivity|congruence].
Qed.

(** With something to send and a conversation to show, the first half
    appends the user message and sends the request. *)
Lemma handleSend_start_sends cl textToSend st w cur :
  truthy (trim (sendText cl textToSend)) = true \/ selectedFile cl <> None ->
  currentConversation cl = Some cur ->
  let r := handleSend_start browser cl textToSend st w in
  fst (fst r) = true
  /\ Forall2 (appended (id cur)
                (userMessage (displayText cl (sendText cl textToSend))))
       (conversations st) (conversations (snd (fst r)))
  /\ currentConversationId (snd (fst r)) = currentConversationId st
  /\ alerts (snd r) = alerts w /\ blobs (snd r) = blobs w.
Proof.
  intros Hpre Hcur. cbn zeta. unfold handleSend_start.
  pose proof (displayText_truthy cl _ Hpre) as Hd.
  replace (negb (truthy (trim (sendText cl textToSend)))
           && match selectedFile cl with Some _ => false | None => true end)
    with false
    by (destruct Hpre as [-> | Hf]; [reflexivity|];
        destruct (selectedFile cl); [now rewrite andb_false_r|congruence]).
  rewrite Hcur, Hd, !bind_eq.
  destruct (updateCurrentConversationMessages_appended cl
              (userMessage (displayText cl (sendText cl textToSend))) st w cur Hcur)
    as (H1 & H2 & _ & H3 & H4).
  cbn zeta in *. cbn [fetch ret fst snd alerts blobs conversations
    currentConversationId setInputText setLoading].
  auto.
Qed.


Lemma clear_file_conversations cl st :
  let st0 := match selectedFile cl with
             | Some _ => setSelectedFile None st
             | None => st
             end in
  conversations st0 = conversations st
  /\ currentConversationId st0 = currentConversationId st.
Proof. destruct (selectedFile cl); now split. Qed.

(** For a response the client accepts, the second half registers the
    decoded audio and appends the reply. *)
Lemma handleSend_settle_succeeds cl status reply audio err binary st w cur :
  ok status = true -> truthy reply = true -> truthy audio = true ->
  atob audio = Some binary ->
  currentConversation cl = Some cur ->
  let r := handleSend_settle browser cl
             (Responded status (BodyObject (Some reply) (Some audio) err)) st w in
  let url := List.length (blobs w) in
  Forall2 (appended (id cur) (aiMessage reply url))
    (conversations st) (conversations (fst r))
  /\ currentConversationId (fst r) = currentConversationId st
  /\ loading (fst r) = false
  /\ alerts (snd r) = alerts w
  /\ nth_error (blobs (snd r)) url
     = Some {| blob_bytes := map (fun c => (c mod 256)%N) binary;
               blob_type := lit "audio/mpeg" |}.
Proof.
  intros Hok Hr Ha Hb Hcur r url. subst r url.
  unfold handleSend_settle, handleSend_try, base64ToAudioUrl.
  rewrite Hok, Hr, Ha, Hb. cbn [negb orb].
  rewrite !bind_eq. cbn [createObjectURL ret fst snd].
  rewrite !bind_eq. cbn [ret fst snd].
  destruct (clear_file_conversations cl st) as [Hc Hi]. cbn zeta in Hc, Hi.
  match goal with |- context [updateCurrentConversationMessages cl ?u ?s ?w1] =>
    destruct (updateCurrentConversationMessages_appended cl
                (aiMessage reply (List.length (blobs w))) s w1 cur Hcur)
      as (H1 & H2 & _ & H3 & H4)
  end.
  cbn zeta in *. rewrite Hc in H1. rewrite Hi in H2. cbn [alerts blobs] in H3, H4.
  cbn [conversations currentConversationId loading setLoading].
  repeat split; try assumption.
  rewrite H4, nth_error_app2, Nat.sub_diag by lia. reflexivity.
Qed.

(** For every failure the second half leaves the store as it finds it
    and raises one alert. *)
Lemma handleSend_settle_fails cl outcome st w :
  Failed outcome ->
  let r := handleSend_settle browser cl outcome st w in
  conversations (fst r) = conversations st
  /\ currentConversationId (fst r) = currentConversationId st
  /\ loading (fst r) = false
  /\ (exists msg, alerts (snd r) = alerts w ++ [msg])
  /\ blobs (snd r) = blobs w.
Proof.
  intros HF r. subst r.
  destruct (clear_file_conversations cl st) as [Hc Hi]. cbn zeta in Hc, Hi.
  unfold handleSend_settle, handleSend_try.
  destruct HF as [message | status body Hok | status message Hok
                 | status reply audio err Hok Hmiss
                 | status reply audio err Hok Hdec].
  - cbn. repeat split; eauto.
  - rewrite Hok. cbn [negb]. rewrite !bind_eq. cbn.
    rewrite Hc, Hi. repeat split; eauto.
  - rewrite Hok. cbn. rewrite Hc, Hi. repeat split; eauto.
  - rewrite Hok. cbn [negb].
    destruct audio as [audio|], reply as [reply|];
      try (rewrite !bind_eq; cbn; rewrite Hc, Hi; repeat split; eauto; fail).
    replace (negb (truthy audio) || negb (truthy reply)) with true
      by (cbn [field_truthy] in Hmiss; destruct Hmiss as [-> | ->];
          [now rewrite orb_true_r | reflexivity]).
    rewrite !bind_eq; cbn; rewrite Hc, Hi; repeat split; eauto.
  - rewrite Hok. cbn [negb].
    destruct reply as [reply|];
      [|rewrite !bind_eq; cbn; rewrite Hc, Hi; repeat split; eauto].
    destruct (negb (truthy audio) || negb (truthy reply));
      [rewrite !bind_eq; cbn; rewrite Hc, Hi; repeat split; eauto|].
    unfold base64ToAudioUrl. rewrite Hdec.
    rewrite !bind_eq; cbn; rewrite Hc, Hi; repeat split; eauto.
Qed.

Lemma handleSend_eq cl textToSend outcome st w :
  handleSend browser cl textToSend outcome st w =
  let r := handleSend_start browser cl textToSend st w in
  if fst (fst r)
  then handleSend_settle browser cl outcome (snd (fst r)) (snd r)
  else (snd (fst r), snd r).
Proof. unfold handleSend. rewrite bind_eq. cbn zeta. now destruct (fst (fst _)). Qed.

Lemma appended_current target mk c c' :
  id c = target -> appended target mk c c' ->
  exists t, c' = with_messages c (messages_or_empty c ++ [mk t]).
Proof.
  intros <-. unfold appended. now rewrite str_eqb_refl.
Qed.

(** C2 (amended). With something to send and a conversation shown, an
    exchange whose response has a success status, a non-empty reply text
    and a non-empty audio field that is base64 leaves the shown
    conversation with its former messages followed by exactly two new
    ones: the user message with the display text, then the ai message
    with the reply text and the handle of the decoded audio.  Id, title
    and creation time of the conversation are unchanged. *)
Theorem successful_exchange_appends_two
    st textToSend status reply audio err binary c w :
  truthy (trim (sendText st textToSend)) = true \/ selectedFile st <> None ->
  currentConversation st = Some c ->
  ok status = true ->
  truthy reply = true -> truthy audio = true -> atob audio = Some binary ->
  let r := handleSend browser st textToSend
             (Responded status (BodyObject (Some reply) (Some audio) err)) st w in
  exists c' mu ma url,
    currentConversation (fst r) = Some c'
    /\ id c' = id c /\ title c' = title c /\ createdAt c' = createdAt c
    /\ messages c' = Some (messages_or_empty c ++ [mu; ma])
    /\ role mu = RoleUser
    /\ text mu = displayText st (sendText st textToSend)
    /\ role ma = RoleAi /\ text ma = reply /\ audioUrl ma = Some url
    /\ nth_error (blobs (snd r)) url
       = Some {| blob_bytes := map (fun b => (b mod 256)%N) binary;
                 blob_type := lit "audio/mpeg" |}.
Proof.
  intros Hpre Hcur Hok Hr Ha Hb r. subst r. rewrite handleSend_eq. cbn zeta.
  destruct (handleSend_start_sends st textToSend st w c Hpre Hcur)
    as (Hsent & H1 & H2 & H3 & H4).
  cbn zeta in *. rewrite Hsent.
  set (r1 := handleSend_start browser st textToSend st w) in *.
  destruct (handleSend_settle_succeeds st status reply audio err binary
              (snd (fst r1)) (snd r1) c Hok Hr Ha Hb Hcur)
    as (K1 & K2 & _ & _ & K5).
  cbn zeta in *.
  set (r2 := handleSend_settle browser st _ (snd (fst r1)) (snd r1)) in *.
  destruct (currentConversation_related _ st (snd (fst r1)) c H2 H1
              (appended_id _ _) Hcur) as [c1 [Hc1 R1]].
  destruct (currentConversation_related _ (snd (fst r1)) (fst r2) c1 K2 K1
              (appended_id _ _) Hc1) as [c2 [Hc2 R2]].
  apply appended_current in R1 as [t1 ->]; [|reflexivity].
  apply appended_current in R2 as [t2 ->]; [|reflexivity].
  eexists _, _, _, _. split; [exact Hc2|].
  cbn [id title createdAt messages with_messages messages_or_empty].
  rewrite <- app_assoc. cbn [app].
  repeat split. exact K5.
Qed.

(** C3. When the exchange fails (request rejected, status not a success,
    body unreadable, reply text or audio absent or empty, audio not
    base64), the second half of the send changes no conversation and
    raises one alert; over the whole exchange the shown conversation
    gains the user message and nothing else. *)
Theorem failed_exchange_appends_no_reply st textToSend outcome c w :
  Failed outcome ->
  truthy (trim (sendText st textToSend)) = true \/ selectedFile st <> None ->
  currentConversation st = Some c ->
  (forall cl st1 w1,
      conversations (fst (handleSend_settle browser cl outcome st1 w1))
      = conversations st1)
  /\ let r := handleSend browser st textToSend outcome st w in
     (exists c' mu,
         currentConversation (fst r) = Some c'
         /\ messages c' = Some (messages_or_empty c ++ [mu])
         /\ role mu = RoleUser
         /\ text mu = displayText st (sendText st textToSend))
     /\ Forall2 (appended (id c)
                   (userMessage (displayText st (sendText st textToSend))))
          (conversations st) (conversations (fst r))
     /\ exists msg, alerts (snd r) = alerts w ++ [msg].
Proof.
  intros HF Hpre Hcur. split.
  { intros cl st1 w1. now destruct (handleSend_settle_fails cl outcome st1 w1 HF). }
  intro r. subst r. rewrite handleSend_eq. cbn zeta.
  destruct (handleSend_start_sends st textToSend st w c Hpre Hcur)
    as (Hsent & H1 & H2 & H3 & H4).
  cbn zeta in *. rewrite Hsent.
  set (r1 := handleSend_start browser st textToSend st w) in *.
  destruct (handleSend_settle_fails st outcome (snd (fst r1)) (snd r1) HF)
    as (K1 & K2 & _ & [msg K4] & _).
  cbn zeta in *.
  set (r2 := handleSend_settle browser st outcome (snd (fst r1)) (snd r1)) in *.
  rewrite K1. split; [|split; [exact H1|]].
  - assert (H2' : currentConversationId (fst r2) = currentConversationId st)
      by congruence.
    assert (H1' : Forall2 (appended (id c)
                   (userMessage (displayText st (sendText st textToSend))))
                   (conversations st) (conversations (fst r2)))
      by (rewrite K1; exact H1).
    destruct (currentConversation_related _ st (fst r2) c H2' H1'
                (appended_id _ _) Hcur) as [c1 [Hc1 R1]].
    apply appended_current in R1 as [t1 ->]; [|reflexivity].
    eexists _, _. split; [exact Hc1|]. repeat split.
  - exists msg. now rewrite K4, H3.
Qed.

End Client.

(** *** Concrete runs *)

Lemma store_never_empty_witness :
  conversations (fst (run sampleBrowser [DeleteChat (lit "u0")]
                        (fst mounted) (snd mounted))) <> [].
Proof.
  apply (store_never_empty sampleBrowser [DeleteChat (lit "u0")]
           (fst mounted) (snd mounted)).
  left. discriminate.
Defined.

Lemma delete_other_keeps_rest_witness :
  let st := fst (run sampleBrowser [NewChat] (fst mounted) (snd mounted)) in
  currentConversationId
    (fst (deleteChatById sampleBrowser st (lit "u0") st emptyWorld))
  = Some (lit "u1").
Proof.
  intro st.
  apply (delete_other_keeps_rest sampleBrowser st (lit "u0") st emptyWorld).
  - vm_compute. discriminate.
  - vm_compute. discriminate.
Defined.

(** C8, as stated, fails: in a session that creates a first chat at
    mount, a second by new chat, deletes the second and creates a third,
    the third conversation created (id [u2]) is titled "New Chat 2". *)
Lemma third_chat_titled_two :
  let st := fst (run sampleBrowser [NewChat; DeleteChat (lit "u1"); NewChat]
                   (fst mounted) (snd mounted)) in
  exists c,
    nth_error (conversations st) 1 = Some c
    /\ id c = lit "u2"
    /\ title c = lit "New Chat 2"
    /\ title c <> lit "New Chat 3".
Proof.
  vm_compute. eexists. repeat split. discriminate.
Qed.

Lemma base64ToAudioUrl_roundtrip_witness :
  exists url w',
    base64ToAudioUrl sampleBrowser (encode [77; 97; 110; 255]%N) emptyWorld
    = (Returned url, w')
    /\ nth_error (blobs w') url
       = Some {| blob_bytes := [77; 97; 110; 255]%N;
                 blob_type := lit "audio/mpeg" |}.
Proof.
  apply (base64ToAudioUrl_roundtrip sampleBrowser [77; 97; 110; 255]%N emptyWorld).
  repeat constructor.
Defined.

Lemma successful_exchange_appends_two_witness :
  let r := handleSend sampleBrowser (fst mounted) (Some (lit "hi"))
             (Responded 200 (BodyObject (Some (lit "yo")) (Some (lit "TWFu")) None))
             (fst mounted) (snd mounted) in
  exists c' mu ma url,
    currentConversation (fst r) = Some c'
    /\ id c' = lit "u0" /\ title c' = lit "New Chat 1" /\ createdAt c' = 1000%Z
    /\ messages c' = Some ([] ++ [mu; ma])
    /\ role mu = RoleUser
    /\ text mu = lit "hi"
    /\ role ma = RoleAi /\ text ma = lit "yo" /\ audioUrl ma = Some url
    /\ nth_error (blobs (snd r)) url
       = Some {| blob_bytes := map (fun b => (b mod 256)%N) [77; 97; 110]%N;
                 blob_type := lit "audio/mpeg" |}.
Proof.
  apply (successful_exchange_appends_two sampleBrowser (fst mounted)
           (Some (lit "hi")) 200%N (lit "yo") (lit "TWFu") None [77; 97; 110]%N
           {| id := lit "u0"; title := lit "New Chat 1"; createdAt := 1000%Z;
              messages := Some [] |} (snd mounted)).
  - left. reflexivity.
  - reflexivity.
  - reflexivity.
  - reflexivity.
  - reflexivity.
  - reflexivity.
Defined.

(** C2, as stated, fails: a success response that carries both fields
    is not enough.  With an audio field that is not base64, or with an
    empty reply text, the shown conversation gains the user message
    only. *)
Lemma response_with_both_fields_appends_one :
  let exchange body :=
    fst (handleSend sampleBrowser (fst mounted) (Some (lit "hi"))
           (Responded 200 body) (fst mounted) (snd mounted)) in
  let shown st := option_map messages_or_empty (currentConversation st) in
  ok 200 = true
  /\ shown (fst mounted) = Some []
  /\ shown (exchange (BodyObject (Some (lit "yo")) (Some (lit "!")) None))
     = Some [userMessage (lit "hi") 1001%Z]
  /\ shown (exchange (BodyObject (Some []) (Some (lit "TWFu")) None))
     = Some [userMessage (lit "hi") 1001%Z].
Proof. vm_compute. repeat split. Qed.

Lemma failed_exchange_appends_no_reply_witness :
  let r := handleSend sampleBrowser (fst mounted) (Some (lit "hi"))
             (Responded 500 (BodyObject None None (Some (lit "boom"))))
             (fst mounted) (snd mounted) in
  exists msg, alerts (snd r) = alerts (snd mounted) ++ [msg].
Proof.
  apply (failed_exchange_appends_no_reply sampleBrowser (fst mounted)
           (Some (lit "hi"))
           (Responded 500 (BodyObject None None (Some (lit "boom"))))
           {| id := lit "u0"; title := lit "New Chat 1"; createdAt := 1000%Z;
              messages := Some [] |} (snd mounted)).
  - apply ErrorStatus. reflexivity.
  - left. reflexivity.
  - reflexivity.
Defined.

Lemma snapshot_replaces_store_witness :
  exists listener,
    onSnapshot_listener sampleBrowser signedIn = Some listener
    /\ conversations (fst (listener remoteDocs signedIn (snd mounted)))
       = remoteDocs
    /\ currentConversationId (fst (listener remoteDocs signedIn (snd mounted)))
       = Some (lit "r1").
Proof.
  eexists. split; [reflexivity|].
  pose proof (snapshot_replaces_store sampleBrowser signedIn _ remoteDocs
                signedIn (snd mounted) eq_refl) as H.
  cbv zeta in H. destruct H as (H1 & _ & H3 & _); [discriminate|].
  split; [exact H1|]. apply H3.
  intros c [<- | [<- | []]]; vm_compute; discriminate.
Defined.

Lemma empty_snapshot_self_heals_witness :
  exists listener fresh,
    onSnapshot_listener sampleBrowser signedIn = Some listener
    /\ conversations (fst (listener [] signedIn (snd mounted))) = [fresh]
    /\ title fresh = lit "New Chat 1".
Proof.
  eexists.
  destruct (empty_snapshot_self_heals sampleBrowser signedIn _ signedIn
              (snd mounted) eq_refl) as (fresh & u & H1 & H2 & _).
  exists fresh. split; [reflexivity|]. split; assumption.
Defined.

Lemma update_targets_active_or_first_witness :
  conversations
    (fst (updateCurrentConversationMessages strayActive
            (fun ms => ret (ms ++ [userMessage (lit "x") 0%Z]))
            strayActive emptyWorld))
  = map (fun c => if str_eqb (id c) (lit "u0")
                  then with_messages c
                         (messages_or_empty c ++ [userMessage (lit "x") 0%Z])
                  else c)
        (conversations strayActive).
Proof.
  destruct (update_targets_active_or_first strayActive
              (fun ms => ms ++ [userMessage (lit "x") 0%Z])
              strayActive emptyWorld) as (_ & H & _).
  apply (H {| id := lit "u0"; title := lit "New Chat 1"; createdAt := 1000%Z;
              messages := Some [] |} []).
  - reflexivity.
  - intros c [<- | []]. vm_compute. discriminate.
Defined.

(** C6, as stated, fails: with an active id that no conversation
    carries, the update is not a no-op; it changes the first
    conversation of the store. *)
Lemma update_without_active_changes_first :
  let st' := fst (updateCurrentConversationMessages strayActive
                    (fun ms => ret (ms ++ [userMessage (lit "x") 0%Z]))
                    strayActive emptyWorld) in
  currentConversationId strayActive = Some (lit "zzz")
  /\ (forall c, In c (conversations strayActive) -> id c <> lit "zzz")
  /\ conversations st' <> conversations strayActive
  /\ map messages (conversations st')
     = [Some [userMessage (lit "x") 0%Z]].
Proof.
  vm_compute. repeat split.
  - intros c [<- | []]. discriminate.
  - discriminate.
Qed.

(** C7, as stated, fails: the title set is not the answer itself but the
    answer trimmed. *)
Lemma rename_stores_trimmed_answer :
  let st := fst mounted in
  let conv := {| id := lit "u0"; title := lit "New Chat 1";
                 createdAt := 1000%Z; messages := Some [] |} in
  let st' := fst (handleRenameChat st conv (Some (lit " a")) st (snd mounted)) in
  conversations st = [conv]
  /\ forallb isWhiteSpace (lit " a") = false
  /\ map title (conversations st') = [lit "a"]
  /\ map title (conversations st') <> [lit " a"].
Proof. vm_compute. repeat split. discriminate. Qed.

End AppFacts.

(** ** Facts about whole sessions *)

Module SessionFacts.

Import JSFacts Base64Facts AppFacts.

Local Open Scope app_scope.

Section Session.

Variable browser : Browser.

Lemma mapM_keeps_ids (F : Conversation -> M Conversation) l : forall w,
  (forall c w0, id (fst (F c w0)) = id c
                /\ uuid_draws (snd (F c w0)) = uuid_draws w0) ->
  map id (fst (mapM F l w)) = map id l
  /\ uuid_draws (snd (mapM F l w)) = uuid_draws w.
Proof.
  induction l as [|c l IH]; intros w HF; [now split|].
  rewrite mapM_cons. cbn [fst snd map].
  destruct (HF c w) as [Hi Hw].
  destruct (IH (snd (F c w)) HF) as [IH1 IH2].
  rewrite IH1, IH2, Hi, Hw. now split.
Qed.

Lemma updateCurrentConversationMessages_kept cl updater st w :
  (forall ms w0, uuid_draws (snd (updater ms w0)) = uuid_draws w0) ->
  kept st w (updateCurrentConversationMessages cl updater st w).
Proof.
  intro Hu. unfold kept, updateCurrentConversationMessages.
  destruct (currentConversation cl) as [cur|]; [|now repeat split].
  rewrite !bind_eq.
  match goal with |- context [mapM ?F (conversations st) w] =>
    destruct (mapM_keeps_ids F (conversations st) w) as [H1 H2] end.
  { intros c w0. destruct (str_eqb (id c) (id cur)); [|now split].
    rewrite bind_eq. cbn [ret fst snd]. split; [reflexivity|apply Hu]. }
  cbn [ret fst snd conversations currentConversationId user setConversations].
  repeat split; try assumption.
  unfold saveConversationToFirestore.
  destruct (user cl); [destruct (find _ _)|]; cbn; assumption.
Qed.

Lemma now_append_draws (mk : Z -> Message) ms w0 :
  uuid_draws (snd ((t <- now browser ;; ret (ms ++ [mk t])) w0)) = uuid_draws w0.
Proof. reflexivity. Qed.

Lemma kept_refl st w : kept st w (st, w).
Proof. now repeat split. Qed.

Lemma kept_trans st w r1 r2 :
  kept st w r1 -> kept (fst r1) (snd r1) r2 -> kept st w r2.
Proof.
  intros (A1 & A2 & A3 & A4) (B1 & B2 & B3 & B4).
  repeat split; congruence.
Qed.

Lemma clearChatById_kept cl convId st w :
  kept st w (clearChatById cl convId st w).
Proof.
  unfold kept, clearChatById. rewrite bind_eq. cbn [ret fst snd].
  assert (Hm : map id (map (fun c => if str_eqb (id c) convId
                                     then with_messages c [] else c)
                           (conversations st)) = map id (conversations st)).
  { rewrite map_map. apply map_ext. intro c.
    now destruct (str_eqb (id c) convId). }
  repeat split.
  - now destruct (is_current cl convId).
  - now destruct (is_current cl convId).
  - now destruct (is_current cl convId).
  - unfold saveConversationToFirestore.
    destruct (user cl); [destruct (find _ _)|]; reflexivity.
Qed.

Lemma handleRenameChat_kept cl conv answer st w :
  kept st w (handleRenameChat cl conv answer st w).
Proof.
  unfold handleRenameChat. destruct answer as [newTitle|]; [|apply kept_refl].
  destruct (negb (truthy newTitle) || negb (truthy (trim newTitle)));
    [apply kept_refl|].
  unfold kept. rewrite bind_eq. cbn [ret fst snd conversations
    currentConversationId user setConversations].
  repeat split.
  - rewrite map_map. apply map_ext. intro c.
    now destruct (str_eqb (id c) (id conv)).
  - unfold saveConversationToFirestore. now destruct (user cl).
Qed.

Lemma handleSend_start_kept cl textToSend st w :
  kept st w (snd (fst (handleSend_start browser cl textToSend st w)),
             snd (handleSend_start browser cl textToSend st w)).
Proof.
  unfold handleSend_start.
  destruct (negb (truthy (trim (sendText cl textToSend))) && _);
    [now repeat split|].
  destruct (currentConversation cl) as [cur|] eqn:Hcur; [|now repeat split].
  rewrite !bind_eq. cbn [fetch ret fst snd].
  match goal with |- context [(if ?b then ?m else ret st) w] =>
    assert (K : kept st w ((if b then m else ret st) w)) end.
  { destruct (truthy _); [|apply kept_refl].
    apply updateCurrentConversationMessages_kept. intros. apply now_append_draws. }
  destruct K as (K1 & K2 & K3 & K4). repeat split; assumption.
Qed.

Lemma handleSend_settle_kept cl outcome st w :
  kept st w (handleSend_settle browser cl outcome st w).
Proof.
  unfold handleSend_settle, handleSend_try.
  destruct outcome as [message | status body].
  { cbn. now repeat split. }
  set (st0 := match selectedFile cl with
              | Some _ => setSelectedFile None st | None => st end).
  assert (K0 : map id (conversations st0) = map id (conversations st)
               /\ currentConversationId st0 = currentConversationId st
               /\ user st0 = user st)
    by (subst st0; destruct (selectedFile cl); now repeat split).
  destruct K0 as (J1 & J2 & J3).
  assert (Kalert : forall msg,
            kept st w ((r <- (alert msg ;; ret (Returned tt, st0)) ;;
                        match fst r with
                        | Returned _ => ret tt
                        | Threw message => alert (lit "Network error: " ++ message)
                        end ;; ret (setLoading false (snd r))) w)).
  { intro msg. rewrite !bind_eq. unfold kept.
    cbn [alert ret fst snd conversations currentConversationId user
         setLoading uuid_draws].
    repeat split; assumption. }
  assert (Kthrow : forall msg,
            kept st w ((r <- ret (@Threw unit msg, st0) ;;
                        match fst r with
                        | Returned _ => ret tt
                        | Threw message => alert (lit "Network error: " ++ message)
                        end ;; ret (setLoading false (snd r))) w)).
  { intro msg. rewrite !bind_eq. unfold kept.
    cbn [alert ret fst snd conversations currentConversationId user
         setLoading uuid_draws].
    repeat split; assumption. }
  destruct (negb (ok status)); [apply Kalert|].
  destruct body as [message | replyText audioBase64 error]; [apply Kthrow|].
  destruct audioBase64 as [audio|], replyText as [reply|]; try apply Kalert.
  destruct (negb (truthy audio) || negb (truthy reply)); [apply Kalert|].
  unfold base64ToAudioUrl. destruct (atob audio) as [binary|].
  2:{ apply Kthrow. }
  repeat (rewrite !bind_eq; cbn [createObjectURL ret fst snd]).
  match goal with |- context [updateCurrentConversationMessages cl ?u st0 ?w1] =>
    pose proof (updateCurrentConversationMessages_kept cl u st0 w1) as K end.
  destruct K as (K1 & K2 & K3 & K4); [intros; apply now_append_draws|].
  cbn [fst snd uuid_draws] in K1, K2, K3, K4.
  unfold kept.
  cbn [ret fst snd conversations currentConversationId user setLoading].
  repeat split; congruence.
Qed.

Lemma handleSend_kept cl textToSend outcome st w :
  kept st w (handleSend browser cl textToSend outcome st w).
Proof.
  rewrite handleSend_eq. cbn zeta.
  pose proof (handleSend_start_kept cl textToSend st w) as K1.
  destruct (fst (fst (handleSend_start browser cl textToSend st w))).
  - eapply kept_trans; [exact K1|]. apply handleSend_settle_kept.
  - exact K1.
Qed.

(** *** The active id always names a stored conversation *)

Lemma active_listed_kept st w r :
  kept st w r -> active_listed st -> active_listed (fst r).
Proof.
  intros (K1 & K2 & _) (c & Hin & Hc).
  assert (Hi : In (id c) (map id (conversations (fst r))))
    by (rewrite K1; now apply in_map).
  apply in_map_iff in Hi as (c' & Hid & Hin').
  exists c'. split; [exact Hin'|]. now rewrite K2, Hid.
Qed.

Lemma step_active_listed op st w :
  active_listed st -> active_listed (fst (step browser op st w)).
Proof.
  intros (c & Hin & Hc). destruct op as [|convId]; cbn [step].
  - destruct (handleNewChat_result browser st st w) as [H1 H2].
    cbn zeta in *. eexists. split; [|exact H2].
    rewrite H1. apply in_or_app. right. now left.
  - destruct (without convId (conversations st)) as [|first rest] eqn:E.
    + destruct (deleteChatById_none_remain browser st _ _ w E) as [w1 [H1 H2]].
      cbn zeta in *. eexists. split; [|exact H2]. rewrite H1. now left.
    + destruct (deleteChatById_some_remain browser st _ _ w _ _ E) as [H1 H2].
      unfold active_listed. rewrite H1, H2.
      destruct (is_current st convId) eqn:Ec.
      * exists first. split; [now left|reflexivity].
      * exists c. split; [|exact Hc]. rewrite <- E. unfold without.
        apply filter_In. split; [exact Hin|].
        unfold is_current in Ec. rewrite Hc in Ec.
        apply negb_true_iff, str_eqb_neq. apply str_eqb_neq in Ec. congruence.
Qed.

Lemma useEffect_loggedOut_resets cl st w :
  user cl = None ->
  let r := useEffect_loggedOut browser cl st w in
  let fresh := fst (createNewConversation browser 1 w) in
  fst r = setCurrentConversationId (Some (id fresh)) (setConversations [fresh] st)
  /\ snd r = snd (createNewConversation browser 1 w).
Proof.
  intro U. cbn zeta. unfold useEffect_loggedOut. rewrite U, bind_eq. now split.
Qed.

Lemma handleEvent_active_listed ev st w :
  active_listed st -> active_listed (fst (handleEvent browser ev st w)).
Proof.
  intro A. destruct ev as [op | n | convId | conv answer | textToSend outcome
                          | docs | firebaseUser]; cbn [handleEvent].
  - now apply step_active_listed.
  - destruct (nth_error (conversations st) n) as [conv|] eqn:E; [|exact A].
    exists conv. split; [|reflexivity]. now apply nth_error_In in E.
  - eapply active_listed_kept; [apply clearChatById_kept|exact A].
  - eapply active_listed_kept; [apply handleRenameChat_kept|exact A].
  - eapply active_listed_kept; [apply handleSend_kept|exact A].
  - unfold onSnapshot_listener. destruct (user st) as [u|]; [|exact A].
    destruct docs as [|first rest].
    + rewrite !bind_eq. cbn [ret fst]. eexists. split; [now left|reflexivity].
    + cbn [ret fst]. unfold active_listed.
      cbn [conversations currentConversationId setConversations
           setCurrentConversationId setChatLoading].
      destruct (find (id_is (currentConversationId st)) (first :: rest))
        as [c|] eqn:F.
      * apply find_id_is_some in F as [Hin Hp]. now exists c.
      * exists first. split; [now left|reflexivity].
  - unfold onAuthStateChanged. destruct firebaseUser as [u|].
    + destruct A as (c & Hin & Hc). now exists c.
    + destruct (user st) as [u|]; [|exact A].
      destruct (useEffect_loggedOut_resets (setUser None st) (setUser None st) w
                  eq_refl) as [-> _].
      eexists. split; [now left|reflexivity].
Qed.

Lemma currentConversation_of_active st :
  active_listed st ->
  exists c, currentConversation st = Some c
            /\ In c (conversations st)
            /\ currentConversationId st = Some (id c).
Proof.
  intros (c & Hin & Hc). unfold currentConversation.
  destruct (find (id_is (currentConversationId st)) (conversations st))
    as [c0|] eqn:F.
  - apply find_id_is_some in F as [Hin0 Hp]. now exists c0.
  - exfalso. exact (find_id_is_none _ _ F c Hin Hc).
Qed.

(** X1. Once the active id names a stored conversation it does so after any
    sequence of events: the store is never empty, the conversation shown
    is found by its id (the first-conversation fallback is not taken),
    and a send never meets a missing conversation. *)
Theorem session_keeps_active_listed evs st w :
  active_listed st ->
  let st' := fst (session browser evs st w) in
  active_listed st'
  /\ conversations st' <> []
  /\ exists c, currentConversation st' = Some c
               /\ In c (conversations st')
               /\ currentConversationId st' = Some (id c).
Proof.
  intro A.
  assert (H : active_listed (fst (session browser evs st w))).
  { revert st w A. induction evs as [|ev evs IH]; intros st w A; [exact A|].
    cbn [session]. rewrite bind_eq. apply IH.
    now apply handleEvent_active_listed. }
  cbn zeta. split; [exact H|]. split.
  - destruct H as (c & Hin & _). intro E. now rewrite E in Hin.
  - now apply currentConversation_of_active.
Qed.

(** X2. The reset that runs when no user is signed in leaves exactly one
    default conversation, whatever the store held, and makes it
    active. *)
Theorem logged_out_reset_single_default cl st w :
  user cl = None ->
  let st' := fst (useEffect_loggedOut browser cl st w) in
  exists fresh,
    conversations st' = [fresh]
    /\ title fresh = lit "New Chat 1"
    /\ messages fresh = Some []
    /\ currentConversationId st' = Some (id fresh)
    /\ active_listed st'
    /\ firestore (snd (useEffect_loggedOut browser cl st w)) = firestore w.
Proof.
  intro U. cbn zeta.
  destruct (useEffect_loggedOut_resets cl st w U) as [-> ->].
  destruct (createNewConversation_default browser 1 w) as [Ht Hm].
  destruct (createNewConversation_world browser 1 w) as [Hf _].
  eexists. repeat split; try eassumption.
  eexists. split; [now left|reflexivity].
Qed.

(** *** Distinct ids *)

Section FreshIds.

Variable gen : nat -> jsstring.
Hypothesis has_randomUUID : crypto_randomUUID browser = Some gen.
Hypothesis gen_injective : forall n m, gen n = gen m -> n = m.

Lemma createNewConversation_drawn index w :
  id (fst (createNewConversation browser index w)) = gen (uuid_draws w)
  /\ uuid_draws (snd (createNewConversation browser index w)) = S (uuid_draws w).
Proof.
  unfold createNewConversation. rewrite has_randomUUID. now split.
Qed.

Lemma ids_fresh_kept st w r :
  kept st w r -> ids_fresh gen st w -> ids_fresh gen (fst r) (snd r).
Proof.
  intros (K1 & _ & _ & K4) [Hnd Hall]. split; [now rewrite K1|].
  intros c' Hin'. rewrite K4.
  assert (Hi : In (id c') (map id (conversations st)))
    by (rewrite <- K1; now apply in_map).
  apply in_map_iff in Hi as (c & Hid & Hin). rewrite <- Hid. now apply Hall.
Qed.

Lemma ids_fresh_single w1 st' w' fresh :
  conversations st' = [fresh] ->
  id fresh = gen (uuid_draws w1) ->
  uuid_draws w' = S (uuid_draws w1) ->
  ids_fresh gen st' w'.
Proof.
  intros Hc Hi Hw. unfold ids_fresh. rewrite Hc. split.
  - cbn. constructor; [intros []|constructor].
  - intros c [<- | []]. exists (uuid_draws w1). split; [lia|exact Hi].
Qed.

Lemma handleNewChat_world cl st w :
  uuid_draws (snd (handleNewChat browser cl st w))
  = uuid_draws (snd (createNewConversation browser
                       (List.length (conversations cl) + 1) w))
  /\ user (fst (handleNewChat browser cl st w)) = user st.
Proof.
  unfold handleNewChat. rewrite !bind_eq. cbn [ret fst snd].
  unfold saveConversationToFirestore. destruct (user cl); now split.
Qed.

Lemma deleteChatById_user cl convId st w :
  user (fst (deleteChatById browser cl convId st w)) = user st.
Proof.
  unfold deleteChatById. rewrite !bind_eq.
  destruct (without convId (conversations st)).
  - rewrite !bind_eq. reflexivity.
  - cbn [ret fst]. now destruct (is_current cl convId).
Qed.

Lemma deleteChatById_draws cl convId st w :
  match without convId (conversations st) with
  | [] =>
      exists w1, uuid_draws w1 = uuid_draws w
        /\ conversations (fst (deleteChatById browser cl convId st w))
           = [fst (createNewConversation browser 1 w1)]
        /\ uuid_draws (snd (deleteChatById browser cl convId st w))
           = uuid_draws (snd (createNewConversation browser 1 w1))
  | _ :: _ =>
      uuid_draws (snd (deleteChatById browser cl convId st w)) = uuid_draws w
  end.
Proof.
  unfold deleteChatById. rewrite !bind_eq.
  set (w1 := snd (match user cl with
                  | Some _ => deleteConversationFromFirestore cl convId
                  | None => ret tt end w)).
  assert (Hw1 : uuid_draws w1 = uuid_draws w).
  { subst w1. unfold deleteConversationFromFirestore.
    now destruct (user cl). }
  destruct (without convId (conversations st)).
  - exists w1. rewrite !bind_eq. cbn [ret fst snd].
    repeat split; [exact Hw1|].
    unfold saveConversationToFirestore. now destruct (user cl).
  - exact Hw1.
Qed.

Lemma NoDup_map_filter (p : Conversation -> bool) l :
  NoDup (map id l) -> NoDup (map id (filter p l)).
Proof.
  induction l as [|c l IH]; [trivial|].
  cbn [map filter]. intro H. inversion_clear H as [|? ? Hn Hd].
  destruct (p c); [|now apply IH].
  cbn [map]. constructor; [|now apply IH].
  intro Hi. apply Hn. apply in_map_iff in Hi as (c' & E & Hin).
  apply filter_In in Hin as [Hin _]. rewrite <- E. now apply in_map.
Qed.

Lemma step_ids_fresh op st w :
  ids_fresh gen st w ->
  ids_fresh gen (fst (step browser op st w)) (snd (step browser op st w)).
Proof.
  intros [Hnd Hall]. destruct op as [|convId]; cbn [step].
  - destruct (handleNewChat_result browser st st w) as [H1 _].
    destruct (handleNewChat_world st st w) as [H2 _].
    destruct (createNewConversation_drawn
                (List.length (conversations st) + 1) w) as [Hi Hw].
    cbn zeta in H1. unfold ids_fresh. rewrite H1, H2, Hw. split.
    + rewrite map_app. cbn [map]. apply NoDup_app; [exact Hnd| |].
      * constructor; [intros []|constructor].
      * intros x Hx [<- | []]. apply in_map_iff in Hx as (c & E & Hin).
        destruct (Hall c Hin) as (n & Hn & En). rewrite Hi in E.
        rewrite En in E. apply gen_injective in E. lia.
    + intros c Hin. apply in_app_or in Hin as [Hin | [<- | []]].
      * destruct (Hall c Hin) as (n & Hn & En). exists n. split; [lia|exact En].
      * exists (uuid_draws w). split; [lia|exact Hi].
  - pose proof (deleteChatById_draws st convId st w) as D.
    destruct (without convId (conversations st)) as [|first rest] eqn:E.
    + destruct D as (w1 & Hw1 & Hc & Hd).
      destruct (createNewConversation_drawn 1 w1) as [Hi Hw].
      apply (ids_fresh_single w1 _ _ _ Hc Hi). now rewrite Hd.
    + destruct (deleteChatById_some_remain browser st _ _ w _ _ E) as [H1 _].
      unfold ids_fresh. rewrite H1, D, <- E. split.
      * now apply NoDup_map_filter.
      * intros c Hin. apply filter_In in Hin as [Hin _]. now apply Hall.
Qed.

Lemma step_user op st w : user (fst (step browser op st w)) = user st.
Proof.
  destruct op; cbn [step].
  - apply handleNewChat_world.
  - apply deleteChatById_user.
Qed.

Lemma handleEvent_ids_fresh ev st w :
  signs_in ev = false -> user st = None ->
  ids_fresh gen st w ->
  ids_fresh gen (fst (handleEvent browser ev st w))
    (snd (handleEvent browser ev st w))
  /\ user (fst (handleEvent browser ev st w)) = None.
Proof.
  intros Hs U F.
  destruct ev as [op | n | convId | conv answer | textToSend outcome
                 | docs | [u|]]; cbn [handleEvent]; try discriminate.
  - split; [now apply step_ids_fresh|now rewrite step_user].
  - destruct (nth_error (conversations st) n); split; assumption.
  - pose proof (clearChatById_kept st convId st w) as K.
    split; [exact (ids_fresh_kept st w _ K F)|]. destruct K as (_ & _ & -> & _). exact U.
  - pose proof (handleRenameChat_kept st conv answer st w) as K.
    split; [exact (ids_fresh_kept st w _ K F)|]. destruct K as (_ & _ & -> & _). exact U.
  - pose proof (handleSend_kept st textToSend outcome st w) as K.
    split; [exact (ids_fresh_kept st w _ K F)|]. destruct K as (_ & _ & -> & _). exact U.
  - unfold onSnapshot_listener. rewrite U. now split.
  - unfold onAuthStateChanged. rewrite U. now split.
Qed.

(** X3. While nobody signs in, and the browser's id source never repeats,
    the conversations of the store keep pairwise distinct ids through
    every sequence of events. *)
Theorem anonymous_session_ids_distinct evs st w :
  forallb (fun ev => negb (signs_in ev)) evs = true ->
  user st = None ->
  ids_fresh gen st w ->
  let r := session browser evs st w in
  NoDup (map id (conversations (fst r))) /\ ids_fresh gen (fst r) (snd r).
Proof.
  intros Hevs U F. cbn zeta.
  assert (H : ids_fresh gen (fst (session browser evs st w))
                (snd (session browser evs st w))).
  { revert st w U F. induction evs as [|ev evs IH]; intros st w U F; [exact F|].
    cbn [forallb] in Hevs. apply andb_true_iff in Hevs as [He Hevs].
    apply negb_true_iff in He.
    cbn [session]. rewrite bind_eq.
    destruct (handleEvent_ids_fresh ev st w He U F) as [F' U'].
    now apply IH. }
  split; [apply H|exact H].
Qed.

Lemma mount_ids_fresh st w :
  ids_fresh gen (fst (useEffect_loggedOut browser initialState st w))
    (snd (useEffect_loggedOut browser initialState st w)).
Proof.
  destruct (useEffect_loggedOut_resets initialState st w eq_refl) as [H1 H2].
  cbn zeta in *.
  destruct (createNewConversation_drawn 1 w) as [Hi Hw].
  apply (ids_fresh_single w _ _ (fst (createNewConversation browser 1 w))).
  - now rewrite H1.
  - exact Hi.
  - now rewrite H2.
Qed.

End FreshIds.

(** *** Effects on the world, one observation at a time *)

Section Observation.

(** An observation of the world that alerts, clock readings and blob
    registrations do not change, and that remote calls do not change
    either unless the closure has a user. *)
Variable X : Type.
Variable obs : World -> X.
Variable cl : AppState.
Hypothesis obs_alert : forall m w, obs (snd (alert m w)) = obs w.
Hypothesis obs_now : forall w, obs (snd (now browser w)) = obs w.
Hypothesis obs_blob : forall b w, obs (snd (createObjectURL b w)) = obs w.
Hypothesis obs_remote :
  user cl = None \/ forall c w, obs (snd (remote c w)) = obs w.

Lemma obs_save conv w : obs (snd (saveConversationToFirestore cl conv w)) = obs w.
Proof.
  unfold saveConversationToFirestore.
  destruct obs_remote as [-> | H]; [reflexivity|].
  destruct (user cl); [apply H|reflexivity].
Qed.

Lemma obs_mapM (F : Conversation -> M Conversation) l : forall w,
  (forall c w0, obs (snd (F c w0)) = obs w0) ->
  obs (snd (mapM F l w)) = obs w.
Proof.
  induction l as [|c l IH]; intros w HF; [reflexivity|].
  rewrite mapM_cons. cbn [snd]. now rewrite IH, HF.
Qed.

Lemma obs_update updater st w :
  (forall ms w0, obs (snd (updater ms w0)) = obs w0) ->
  obs (snd (updateCurrentConversationMessages cl updater st w)) = obs w.
Proof.
  intro Hu. unfold updateCurrentConversationMessages.
  destruct (currentConversation cl) as [cur|]; [|reflexivity].
  rewrite !bind_eq. cbn [ret snd].
  match goal with |- context [mapM ?F (conversations st) w] =>
    assert (Hm : obs (snd (mapM F (conversations st) w)) = obs w) end.
  { apply obs_mapM. intros c w0.
    destruct (str_eqb (id c) (id cur)); [|reflexivity].
    rewrite bind_eq. cbn [ret snd]. apply Hu. }
  case_eq (user cl); [intros u _; destruct (find _ _)|intros _]; cbn [ret snd];
    try rewrite obs_save; exact Hm.
Qed.

Lemma obs_append (mk : Z -> Message) ms w0 :
  obs (snd ((t <- now browser ;; ret (ms ++ [mk t])) w0)) = obs w0.
Proof. rewrite bind_eq. cbn [ret snd]. apply obs_now. Qed.

Lemma obs_settle outcome st w :
  obs (snd (handleSend_settle browser cl outcome st w)) = obs w.
Proof.
  unfold handleSend_settle, handleSend_try.
  destruct outcome as [message | status body].
  { rewrite !bind_eq. cbn [ret fst snd]. apply obs_alert. }
  destruct (negb (ok status)).
  { rewrite !bind_eq. cbn [ret fst snd]. apply obs_alert. }
  destruct body as [message | replyText audioBase64 error].
  { rewrite !bind_eq. cbn [ret fst snd]. apply obs_alert. }
  destruct audioBase64 as [audio|], replyText as [reply|];
    try (rewrite !bind_eq; cbn [ret fst snd]; apply obs_alert).
  destruct (negb (truthy audio) || negb (truthy reply)).
  { rewrite !bind_eq. cbn [ret fst snd]. apply obs_alert. }
  unfold base64ToAudioUrl. destruct (atob audio) as [binary|].
  2:{ rewrite !bind_eq. cbn [ret fst snd]. apply obs_alert. }
  repeat (rewrite !bind_eq; cbn [ret fst snd]).
  rewrite obs_update by (intros; apply obs_append). apply obs_blob.
Qed.

End Observation.

(** *** Sends that are refused, and what a send leaves behind *)

Lemma truthy_trim_false s :
  forallb isWhiteSpace s = true -> truthy (trim s) = false.
Proof. intro H. now rewrite truthy_trim, H. Qed.

(** X4. A send with nothing to send (blank text and no file), or with no
    conversation in the render, raises one alert and does nothing else:
    no message, no request, no change of state. *)
Theorem refused_send_only_alerts cl textToSend outcome st w :
  (forallb isWhiteSpace (sendText cl textToSend) = true
   /\ selectedFile cl = None)
  \/ conversations cl = [] ->
  exists msg,
    handleSend browser cl textToSend outcome st w = (st, snd (alert msg w))
    /\ (msg = lit "Please type a message or upload a file."
        \/ msg = lit "No active conversation. Create a new chat first.").
Proof.
  intro H. unfold handleSend, handleSend_start. rewrite bind_eq.
  destruct (negb (truthy (trim (sendText cl textToSend)))
            && match selectedFile cl with Some _ => false | None => true end)
    eqn:E.
  - eexists. split; [reflexivity|now left].
  - destruct H as [[Hb Hf] | He].
    + rewrite (truthy_trim_false _ Hb), Hf in E. discriminate.
    + rewrite (currentConversation_empty _ He).
      eexists. split; [reflexivity|now right].
Qed.

Lemma updateCurrentConversationMessages_shape cl updater st w :
  exists l,
    fst (updateCurrentConversationMessages cl updater st w)
    = setConversations l st.
Proof.
  destruct (currentConversation cl) as [cur|] eqn:H.
  - rewrite (updateCurrentConversationMessages_state _ _ _ _ _ H).
    eexists. reflexivity.
  - rewrite (updateCurrentConversationMessages_no_current _ _ _ _ H).
    exists (conversations st). now destruct st.
Qed.

Lemma handleSend_settle_flags cl outcome st w :
  let st' := fst (handleSend_settle browser cl outcome st w) in
  loading st' = false
  /\ inputText st' = inputText st
  /\ selectedFile st' =
     match outcome, selectedFile cl with
     | Responded _ _, Some _ => None
     | _, _ => selectedFile st
     end.
Proof.
  cbn zeta. unfold handleSend_settle, handleSend_try.
  destruct outcome as [message | status body].
  { rewrite !bind_eq. now repeat split. }
  set (st0 := match selectedFile cl with
              | Some _ => setSelectedFile None st | None => st end).
  assert (K0 : inputText st0 = inputText st
               /\ selectedFile st0 = match selectedFile cl with
                                     | Some _ => None
                                     | None => selectedFile st end)
    by (subst st0; destruct (selectedFile cl); now split).
  destruct K0 as [J1 J2].
  destruct (negb (ok status)).
  { rewrite !bind_eq. cbn [ret fst snd alert loading inputText selectedFile
      setLoading]. now repeat split. }
  destruct body as [message | replyText audioBase64 error].
  { rewrite !bind_eq. cbn [ret fst snd alert loading inputText selectedFile
      setLoading]. now repeat split. }
  destruct audioBase64 as [audio|], replyText as [reply|];
    try (rewrite !bind_eq; cbn [ret fst snd alert loading inputText
           selectedFile setLoading]; now repeat split).
  destruct (negb (truthy audio) || negb (truthy reply)).
  { rewrite !bind_eq. cbn [ret fst snd alert loading inputText selectedFile
      setLoading]. now repeat split. }
  unfold base64ToAudioUrl. destruct (atob audio) as [binary|].
  2:{ rewrite !bind_eq. cbn [ret fst snd alert loading inputText selectedFile
        setLoading]. now repeat split. }
  repeat (rewrite !bind_eq; cbn [createObjectURL ret fst snd]).
  match goal with |- context [updateCurrentConversationMessages cl ?u st0 ?w1] =>
    destruct (updateCurrentConversationMessages_shape cl u st0 w1) as [l ->] end.
  cbn [loading inputText selectedFile setLoading setConversations].
  now repeat split.
Qed.

Lemma handleSend_start_flags cl textToSend st w cur :
  truthy (trim (sendText cl textToSend)) = true \/ selectedFile cl <> None ->
  currentConversation cl = Some cur ->
  let r := handleSend_start browser cl textToSend st w in
  fst (fst r) = true
  /\ loading (snd (fst r)) = true
  /\ inputText (snd (fst r)) = []
  /\ selectedFile (snd (fst r)) = selectedFile st
  /\ network (snd r)
     = network w ++ [requestFor cl (sendText cl textToSend)].
Proof.
  intros Hpre Hcur. cbn zeta. unfold handleSend_start.
  replace (negb (truthy (trim (sendText cl textToSend)))
           && match selectedFile cl with Some _ => false | None => true end)
    with false
    by (destruct Hpre as [-> | Hf]; [reflexivity|];
        destruct (selectedFile cl); [now rewrite andb_false_r|congruence]).
  rewrite Hcur, (displayText_truthy cl _ Hpre), !bind_eq.
  cbn [fetch ret fst snd network].
  match goal with |- context [updateCurrentConversationMessages cl ?u st w] =>
    destruct (updateCurrentConversationMessages_shape cl u st w) as [l Hl];
    rewrite Hl;
    rewrite (obs_update _ network cl (or_intror (fun _ _ => eq_refl)) u st w)
      by (intros; reflexivity)
  end.
  now repeat split.
Qed.

(** X5. A send that passes the checks issues exactly one request, whatever
    comes back: a multipart file request when a file is attached (with
    the text as question, or the stock question when the text is blank),
    a text request otherwise.  The question or text sent is never
    empty. *)
Theorem send_issues_one_request cl textToSend outcome st w cur :
  truthy (trim (sendText cl textToSend)) = true \/ selectedFile cl <> None ->
  currentConversation cl = Some cur ->
  let text := sendText cl textToSend in
  network (snd (handleSend browser cl textToSend outcome st w))
  = network w ++ [requestFor cl text]
  /\ match selectedFile cl with
     | None => requestFor cl text = VoiceChat text /\ truthy text = true
     | Some f =>
         exists question,
           requestFor cl text = FileChat f question
           /\ truthy question = true
           /\ question = (if forallb isWhiteSpace text
                          then lit "Summarize this file for me." else text)
     end.
Proof.
  intros Hpre Hcur text. subst text. split.
  - rewrite handleSend_eq. cbn zeta.
    destruct (handleSend_start_flags cl textToSend st w cur Hpre Hcur)
      as (Hs & _ & _ & _ & Hn).
    cbn zeta in *. rewrite Hs.
    rewrite (obs_settle _ network cl (fun _ _ => eq_refl) (fun _ => eq_refl)
               (fun _ _ => eq_refl) (or_intror (fun _ _ => eq_refl))).
    exact Hn.
  - unfold requestFor. rewrite truthy_trim.
    destruct (selectedFile cl) as [f|].
    + eexists. split; [reflexivity|].
      destruct (forallb isWhiteSpace (sendText cl textToSend)) eqn:E;
        cbn [negb]; split; try reflexivity.
      destruct (sendText cl textToSend); [discriminate|reflexivity].
    + split; [reflexivity|].
      destruct Hpre as [H|H]; [|congruence]. now apply truthy_trim_text.
Qed.

(** X6. Whatever comes back, a send that passed the checks ends with the
    busy flag down and the input box empty (the flag is up while the
    request is out).  An attached file is detached once the server has
    responded, also with an error, and stays attached when the request
    itself failed. *)
Theorem send_ends_idle cl textToSend outcome st w cur :
  truthy (trim (sendText cl textToSend)) = true \/ selectedFile cl <> None ->
  currentConversation cl = Some cur ->
  let st' := fst (handleSend browser cl textToSend outcome st w) in
  loading (snd (fst (handleSend_start browser cl textToSend st w))) = true
  /\ loading st' = false
  /\ inputText st' = []
  /\ selectedFile st' =
     match outcome, selectedFile cl with
     | Responded _ _, Some _ => None
     | _, _ => selectedFile st
     end.
Proof.
  intros Hpre Hcur. cbn zeta. rewrite handleSend_eq. cbn zeta.
  destruct (handleSend_start_flags cl textToSend st w cur Hpre Hcur)
    as (Hs & Hl & Hi & Hf & _).
  cbn zeta in *. rewrite Hs.
  set (r1 := handleSend_start browser cl textToSend st w) in *.
  destruct (handleSend_settle_flags cl outcome (snd (fst r1)) (snd r1))
    as (K1 & K2 & K3).
  cbn zeta in *. rewrite K1, K2, K3, Hi, Hf. now repeat split.
Qed.

(** X7. What the user is told when an exchange fails: a rejected request
    and an undecodable audio field are both reported as a network
    error, with the error's message; an error status is reported with
    its number and the error text of the body. *)
Theorem failure_alert_texts cl st w :
  (forall message,
      alerts (snd (handleSend_settle browser cl (Rejected message) st w))
      = alerts w ++ [lit "Network error: " ++ message])
  /\ (forall status replyText audioBase64 e,
         ok status = false ->
         alerts (snd (handleSend_settle browser cl
                        (Responded status
                           (BodyObject replyText audioBase64 (Some e))) st w))
         = alerts w
           ++ [lit "Server error " ++ String_of_N status ++ lit ": " ++ e])
  /\ (forall status reply audio error,
         ok status = true -> truthy reply = true -> truthy audio = true ->
         atob audio = None ->
         alerts (snd (handleSend_settle browser cl
                        (Responded status
                           (BodyObject (Some reply) (Some audio) error)) st w))
         = alerts w ++ [lit "Network error: " ++ atob_error_message browser]).
Proof.
  repeat split.
  - intros status replyText audioBase64 e Hok.
    unfold handleSend_settle, handleSend_try. rewrite Hok. cbn [negb].
    rewrite !bind_eq. cbn [ret fst snd alert alerts].
    destruct e as [|x e]; cbn [truthy]; [|now rewrite <- !app_assoc].
    now rewrite !app_nil_r.
  - intros status reply audio error Hok Hr Ha Hd.
    unfold handleSend_settle, handleSend_try, base64ToAudioUrl.
    rewrite Hok, Hr, Ha, Hd. reflexivity.
Qed.

(** *** Clearing and deleting *)

(** X8. Clearing empties the messages of the conversations carrying the id
    and touches nothing else in the store: ids, titles, creation times,
    order and number of conversations, and the active id are unchanged.
    The input box is emptied exactly when the cleared conversation is the
    active one.  Without a user nothing is written remotely. *)
Theorem clear_empties_only_named cl convId st w :
  let r := clearChatById cl convId st w in
  Forall2 (fun c c' =>
             id c' = id c /\ title c' = title c /\ createdAt c' = createdAt c
             /\ messages c' = if str_eqb (id c) convId then Some []
                              else messages c)
    (conversations st) (conversations (fst r))
  /\ currentConversationId (fst r) = currentConversationId st
  /\ inputText (fst r) = (if is_current cl convId then [] else inputText st)
  /\ (user cl = None -> snd r = w).
Proof.
  cbn zeta. unfold clearChatById. rewrite bind_eq. cbn [ret fst snd].
  repeat split.
  - replace (conversations (if is_current cl convId then _ else _))
      with (map (fun c => if str_eqb (id c) convId
                          then with_messages c [] else c) (conversations st))
      by (now destruct (is_current cl convId)).
    induction (conversations st) as [|c l IH]; [constructor|].
    cbn [map]. constructor; [|exact IH].
    now destruct (str_eqb (id c) convId).
  - now destruct (is_current cl convId).
  - now destruct (is_current cl convId).
  - now intros ->.
Qed.

(** X9. Deleting the active conversation, when others remain, makes the
    first remaining conversation active; the remaining records are the
    former ones.  A signed-in user's delete issues one remote deletion
    for the id and nothing else; an anonymous one issues none. *)
Theorem delete_active_selects_first cl convId st w first rest :
  currentConversationId cl = Some convId ->
  without convId (conversations st) = first :: rest ->
  let r := deleteChatById browser cl convId st w in
  conversations (fst r) = first :: rest
  /\ currentConversationId (fst r) = Some (id first)
  /\ In first (conversations st)
  /\ firestore (snd r)
     = firestore w ++ match user cl with
                      | Some u => [DeleteDoc (uid u) convId]
                      | None => []
                      end.
Proof.
  intros Hc E. cbn zeta.
  destruct (deleteChatById_some_remain browser cl _ _ w _ _ E) as [H1 H2].
  assert (Hcur : is_current cl convId = true)
    by (unfold is_current; rewrite Hc; apply str_eqb_refl).
  rewrite Hcur in H2. repeat split; try assumption.
  - assert (Hin : In first (without convId (conversations st)))
      by (rewrite E; now left).
    now apply filter_In in Hin.
  - unfold deleteChatById. rewrite E, bind_eq. cbn [ret snd].
    unfold deleteConversationFromFirestore.
    destruct (user cl); [reflexivity|]. cbn. now rewrite app_nil_r.
Qed.

(** *** Anonymous sessions stay local *)

Lemma handleEvent_user_none ev st w :
  signs_in ev = false -> user st = None ->
  user (fst (handleEvent browser ev st w)) = None.
Proof.
  intros Hs U.
  destruct ev as [op | n | convId | conv answer | textToSend outcome
                 | docs | [u|]]; cbn [handleEvent]; try discriminate.
  - destruct op; cbn [step].
    + unfold handleNewChat. rewrite !bind_eq. exact U.
    + unfold deleteChatById. rewrite !bind_eq.
      destruct (without _ _); [rewrite !bind_eq; exact U|].
      cbn [ret fst]. now destruct (is_current st _).
  - now destruct (nth_error (conversations st) n).
  - destruct (clearChatById_kept st convId st w) as (_ & _ & -> & _). exact U.
  - destruct (handleRenameChat_kept st conv answer st w) as (_ & _ & -> & _).
    exact U.
  - destruct (handleSend_kept st textToSend outcome st w) as (_ & _ & -> & _).
    exact U.
  - unfold onSnapshot_listener. now rewrite U.
  - unfold onAuthStateChanged. now rewrite U.
Qed.

Lemma handleSend_start_firestore cl textToSend st w :
  user cl = None ->
  firestore (snd (handleSend_start browser cl textToSend st w)) = firestore w.
Proof.
  intro U. unfold handleSend_start.
  destruct (negb (truthy (trim (sendText cl textToSend))) && _);
    [reflexivity|].
  destruct (currentConversation cl); [|reflexivity].
  rewrite !bind_eq. cbn [fetch ret fst snd firestore].
  destruct (truthy _); [|reflexivity].
  apply (obs_update _ firestore cl (or_introl U)). intros. reflexivity.
Qed.

Lemma handleEvent_firestore ev st w :
  signs_in ev = false -> user st = None ->
  firestore (snd (handleEvent browser ev st w)) = firestore w.
Proof.
  intros Hs U.
  destruct ev as [op | n | convId | conv answer | textToSend outcome
                 | docs | [u|]]; cbn [handleEvent]; try discriminate.
  - destruct op as [|convId]; cbn [step].
    + unfold handleNewChat, saveConversationToFirestore.
      rewrite !bind_eq, U. cbn [ret snd]. apply createNewConversation_world.
    + unfold deleteChatById, saveConversationToFirestore. rewrite !bind_eq, U.
      destruct (without _ _); [|reflexivity].
      rewrite !bind_eq. cbn [ret snd]. apply createNewConversation_world.
  - now destruct (nth_error (conversations st) n).
  - unfold clearChatById. now rewrite bind_eq, U.
  - unfold handleRenameChat, saveConversationToFirestore.
    destruct answer as [t|]; [|reflexivity].
    destruct (negb (truthy t) || _); [reflexivity|]. now rewrite bind_eq, U.
  - rewrite handleSend_eq. cbn zeta.
    pose proof (handleSend_start_firestore st textToSend st w U) as H1.
    destruct (fst (fst (handleSend_start browser st textToSend st w)));
      [|exact H1].
    rewrite (obs_settle _ firestore st (fun _ _ => eq_refl) (fun _ => eq_refl)
               (fun _ _ => eq_refl) (or_introl U)).
    exact H1.
  - unfold onSnapshot_listener. now rewrite U.
  - unfold onAuthStateChanged. now rewrite U.
Qed.

(** X10. As long as nobody signs in, no event writes to or deletes from the
    remote store. *)
Theorem anonymous_session_never_writes evs st w :
  forallb (fun ev => negb (signs_in ev)) evs = true ->
  user st = None ->
  firestore (snd (session browser evs st w)) = firestore w
  /\ user (fst (session browser evs st w)) = None.
Proof.
  revert st w. induction evs as [|ev evs IH]; intros st w Hevs U;
    [now split|].
  cbn [forallb] in Hevs. apply andb_true_iff in Hevs as [He Hevs].
  apply negb_true_iff in He. cbn [session]. rewrite bind_eq.
  destruct (IH (fst (handleEvent browser ev st w))
              (snd (handleEvent browser ev st w)) Hevs
              (handleEvent_user_none ev st w He U)) as [H1 H2].
  split; [|exact H2]. rewrite H1. now apply handleEvent_firestore.
Qed.

(** *** Ids under the timestamp fallback *)

(** X11. Without [crypto.randomUUID] the id is the clock reading in decimal:
    two chats created one after the other while the clock shows the same
    millisecond get the same id, and deleting by that id removes both. *)
Theorem fallback_ids_collide st w :
  crypto_randomUUID browser = None ->
  Date_now browser (clock_reads w) = Date_now browser (clock_reads w + 2) ->
  let st' := fst (run browser [NewChat; NewChat] st w) in
  exists c1 c2,
    conversations st' = conversations st ++ [c1; c2]
    /\ id c1 = String_of_Z (Date_now browser (clock_reads w))
    /\ id c2 = id c1
    /\ without (id c1) (conversations st')
       = without (id c1) (conversations st).
Proof.
  intros Hnone Hclock. cbn zeta. cbn [run step]. rewrite !bind_eq.
  cbn [ret fst].
  set (r1 := handleNewChat browser st st w).
  destruct (handleNewChat_result browser (fst r1) (fst r1) (snd r1)) as [H2 _].
  destruct (handleNewChat_result browser st st w) as [H1 _].
  cbn zeta in *. fold r1 in H1.
  assert (Hw : clock_reads (snd r1) = clock_reads w + 2).
  { subst r1. unfold handleNewChat, createNewConversation, saveConversationToFirestore.
    rewrite Hnone, !bind_eq. destruct (user st); cbn; lia. }
  set (c1 := fst (createNewConversation browser
                    (List.length (conversations st) + 1) w)) in *.
  set (c2 := fst (createNewConversation browser
                    (List.length (conversations (fst r1)) + 1) (snd r1))) in *.
  assert (I1 : id c1 = String_of_Z (Date_now browser (clock_reads w)))
    by (subst c1; unfold createNewConversation; now rewrite Hnone).
  assert (I2 : id c2 = String_of_Z (Date_now browser (clock_reads w)))
    by (subst c2; unfold createNewConversation; rewrite Hnone; cbn;
        now rewrite Hw, <- Hclock).
  exists c1, c2. rewrite H2, H1, <- app_assoc. cbn [app].
  split; [reflexivity|]. split; [exact I1|]. split; [now rewrite I2, I1|].
  unfold without. rewrite filter_app. cbn [filter].
  rewrite I2, <- I1, str_eqb_refl. cbn [negb]. now rewrite app_nil_r.
Qed.

End Session.

End SessionFacts.

(** ** Facts about the codec beyond the round trip *)

Module CodecFacts.

Import Base64Facts.

Local Open Scope N_scope.

Lemma sextet_of_bound c s : sextet_of c = Some s -> s < 64.
Proof.
  unfold sextet_of.
  repeat match goal with
  | |- context [?a <=? ?b] => destruct (N.leb_spec a b)
  | |- context [?a =? ?b] => destruct (N.eqb_spec a b)
  end; cbn [andb]; intros [= <-]; lia.
Qed.

Lemma sextets_bound data : forall ss,
  sextets data = Some ss -> Forall (fun s => s < 64) ss.
Proof.
  induction data as [|c data IH]; intros ss; cbn [sextets].
  - intros [= <-]. constructor.
  - destruct (sextet_of c) as [s|] eqn:E; [|discriminate].
    destruct (sextets data) as [ss'|]; [|discriminate].
    intros [= <-]. constructor; [now apply (sextet_of_bound c)|now apply IH].
Qed.

Lemma bytes_of_sextets_bound n : forall ss,
  (List.length ss <= n)%nat ->
  Forall (fun s => s < 64) ss ->
  Forall (fun b => b < 256) (bytes_of_sextets ss).
Proof.
  induction n as [|n IH]; intros ss Hn Hs.
  - destruct ss; [constructor|cbn in Hn; lia].
  - destruct ss as [|s0 [|s1 [|s2 [|s3 rest]]]]; try (constructor; fail).
    + inversion_clear Hs as [|? ? H0 Hs']. inversion_clear Hs' as [|? ? H1 _].
      cbn [bytes_of_sextets]. repeat constructor. div_lia.
    + inversion_clear Hs as [|? ? H0 Hs']. inversion_clear Hs' as [|? ? H1 Hs''].
      inversion_clear Hs'' as [|? ? H2 _].
      cbn [bytes_of_sextets]. repeat constructor; div_lia.
    + inversion_clear Hs as [|? ? H0 Hs']. inversion_clear Hs' as [|? ? H1 Hs''].
      inversion_clear Hs'' as [|? ? H2 Hs3]. inversion_clear Hs3 as [|? ? H3 Hr].
      cbn [bytes_of_sextets]. repeat (constructor; [div_lia|]).
      apply IH; [cbn [List.length] in Hn; lia|exact Hr].
Qed.

(** What [atob] returns is a binary string: every code unit is a byte. *)
Lemma atob_binary data binary :
  atob data = Some binary -> Forall (fun b => b < 256) binary.
Proof.
  unfold atob.
  destruct (_ =? 1); [discriminate|].
  destruct (sextets _) as [ss|] eqn:E; [|discriminate].
  intros [= <-]. apply (bytes_of_sextets_bound (List.length ss)); [lia|].
  now apply sextets_bound in E.
Qed.

(** X12. The encoder writes four characters for every three bytes, the last
    group padded. *)
Theorem encode_length bytes :
  List.length (encode bytes) = (4 * ((List.length bytes + 2) / 3))%nat.
Proof.
  induction bytes as [| a | a b | a b c r IH] using list_ind3;
    try reflexivity.
  cbn [encode List.length]. rewrite IH.
  replace (S (S (S (List.length r))) + 2)%nat
    with ((List.length r + 2) + 1 * 3)%nat by lia.
  rewrite Nat.div_add by lia. lia.
Qed.

End CodecFacts.

(** ** Facts about the backend and the client served by it *)

Module BackendFacts.

Import Backend JSFacts Base64Facts AppFacts CodecFacts SessionFacts.
Local Open Scope app_scope.

Section Adapter.

Variable browser : Browser.

(** X13. The adapter registers exactly the bytes [atob] returns, under a new
    handle, and nothing when [atob] throws: the byte array neither
    truncates nor wraps a code unit. *)
Theorem base64ToAudioUrl_stores_atob_output base64 w :
  match atob base64 with
  | Some binary =>
      base64ToAudioUrl browser base64 w
      = (Returned (List.length (blobs w)),
         snd (createObjectURL
                {| blob_bytes := binary; blob_type := lit "audio/mpeg" |} w))
  | None =>
      base64ToAudioUrl browser base64 w = (Threw (atob_error_message browser), w)
  end.
Proof.
  unfold base64ToAudioUrl. destruct (atob base64) as [binary|] eqn:E;
    [|reflexivity].
  rewrite (map_mod_256 _ (atob_binary _ _ E)). reflexivity.
Qed.

End Adapter.

Section Services.

Variable generateContent : jsstring -> GeminiResult.
Variable textToSpeech : jsstring -> TtsResult.
Variable recognize : list N -> SttResult.
Variable readPdfText : jsstring -> Completion jsstring.
Variable readUtf8 : jsstring -> Completion jsstring.
Variable stored : File -> Upload.

(** X14. The helper returns exactly when the model gave a non-empty text and
    the synthesis gave non-empty audio; the reply then carries that text
    and the base64 of that audio. *)
Theorem processTextWithAI_returns userText reply :
  processTextWithAI generateContent textToSpeech userText = Returned reply <->
  exists audio,
    generateContent userText = GeminiResolves (Some (replyText reply))
    /\ truthy (replyText reply) = true
    /\ textToSpeech (replyText reply) = TtsOk audio
    /\ audio <> []
    /\ audioBase64 reply = encode audio.
Proof.
  unfold processTextWithAI. split.
  - destruct (generateContent userText) as [m | [t|]]; try discriminate.
    destruct (truthy t) eqn:Ht; [|discriminate].
    destruct (textToSpeech t) as [m | e | audio] eqn:Hs; try discriminate.
    destruct audio as [|b audio]; [discriminate|].
    intros [= <-]. exists (b :: audio). cbn. repeat split; try assumption.
    discriminate.
  - intros (audio & Hg & Ht & Hs & Hne & Ha).
    rewrite Hg, Ht, Hs. destruct audio as [|b audio]; [congruence|].
    destruct reply as [r a]. cbn in *. now rewrite Ha.
Qed.

Lemma respond_status r :
  match respond r with
  | {| status := s; body := b |} =>
      (s = 200%N /\ exists reply, r = Returned reply /\ b = ReplyBody reply)
      \/ (s = 500%N /\ exists m, r = Threw m /\ b = ErrorBody m)
  end.
Proof. destruct r; cbn; [left|right]; eauto. Qed.


(** X16. The file endpoint removes the stored upload exactly once whenever
    the type is refused or the text was extracted, and leaves it in
    place when reading or parsing it throws.  Types other than PDF and
    plain text are refused with 400 before anything is read. *)
Theorem fileChat_removes_upload f question :
  let r := fileChat generateContent textToSpeech readPdfText readUtf8
             (Some f) question in
  let is_pdf := str_eqb (mimetype f) (lit "application/pdf") in
  let is_txt := str_eqb (mimetype f) (lit "text/plain") in
  (is_pdf || is_txt = false ->
   r = ({| status := 400; body := ErrorBody (lit "Unsupported file type") |},
        [path f]))
  /\ (forall message,
         (is_pdf = true /\ readPdfText (path f) = Threw message)
         \/ (is_pdf = false /\ is_txt = true
             /\ readUtf8 (path f) = Threw message) ->
         r = ({| status := 500; body := ErrorBody message |}, []))
  /\ (forall extractedText,
         (is_pdf = true /\ readPdfText (path f) = Returned extractedText)
         \/ (is_pdf = false /\ is_txt = true
             /\ readUtf8 (path f) = Returned extractedText) ->
         snd r = [path f]
         /\ exists userQuestion,
              fst r = respond (processTextWithAI generateContent textToSpeech
                                 (finalPrompt extractedText userQuestion))
              /\ truthy userQuestion = true
              /\ (field_truthy question = true -> question = Some userQuestion)
              /\ (field_truthy question = false ->
                  userQuestion = lit "Summarize this document")).
Proof.
  cbn zeta. unfold fileChat. split; [|split].
  - intro H. apply orb_false_iff in H as [-> ->]. reflexivity.
  - intros message [[Hp H] | (Hp & Ht & H)].
    + now rewrite Hp, H.
    + now rewrite Hp, Ht, H.
  - assert (Q : exists userQuestion,
               match question with
               | Some q => if truthy q then q else lit "Summarize this document"
               | None => lit "Summarize this document"
               end = userQuestion
               /\ truthy userQuestion = true
               /\ (field_truthy question = true -> question = Some userQuestion)
               /\ (field_truthy question = false ->
                   userQuestion = lit "Summarize this document")).
    { destruct question as [q|]; cbn [field_truthy];
        [destruct (truthy q) eqn:Hq|]; eexists; repeat split;
        try reflexivity; try assumption; intros; congruence. }
    destruct Q as (userQuestion & Hq & Q1 & Q2 & Q3).
    intros extractedText [[Hp H] | (Hp & Ht & H)].
    + rewrite Hp, H, Hq. cbn [fst snd]. split; [reflexivity|].
      exists userQuestion. now repeat split.
    + rewrite Hp, Ht, H, Hq. cbn [fst snd]. split; [reflexivity|].
      exists userQuestion. now repeat split.
Qed.

(** *** One send answered by the backend *)

Variable browser : Browser.

Lemma encode_truthy audio : audio <> [] -> truthy (encode audio) = true.
Proof. destruct audio as [|a [|b [|c r]]]; [congruence|reflexivity..]. Qed.

Lemma deliver_reply reply :
  deliver (respond (Returned reply))
  = Responded 200 (BodyObject (Some (replyText reply))
                     (Some (audioBase64 reply)) None).
Proof. reflexivity. Qed.

Lemma deliver_error message :
  deliver (respond (Threw message))
  = Responded 500 (BodyObject None None (Some message)).
Proof. reflexivity. Qed.

(** The shown conversation after a send whose second half appended
    nothing. *)
Lemma shown_after_failed_send st textToSend outcome c w :
  Failed outcome ->
  truthy (trim (sendText st textToSend)) = true \/ selectedFile st <> None ->
  currentConversation st = Some c ->
  let r := handleSend browser st textToSend outcome st w in
  (exists c' mu,
      currentConversation (fst r) = Some c'
      /\ messages c' = Some (messages_or_empty c ++ [mu])
      /\ role mu = RoleUser
      /\ text mu = displayText st (sendText st textToSend))
  /\ blobs (snd r) = blobs w.
Proof.
  intros HF Hpre Hcur r. subst r. rewrite handleSend_eq. cbn zeta.
  destruct (handleSend_start_sends browser st textToSend st w c Hpre Hcur)
    as (Hsent & H1 & H2 & H3 & H4).
  cbn zeta in *. rewrite Hsent.
  set (r1 := handleSend_start browser st textToSend st w) in *.
  destruct (handleSend_settle_fails browser st outcome (snd (fst r1)) (snd r1) HF)
    as (K1 & K2 & _ & _ & K5).
  cbn zeta in *.
  set (r2 := handleSend_settle browser st outcome (snd (fst r1)) (snd r1)) in *.
  split; [|congruence].
  assert (H2' : currentConversationId (fst r2) = currentConversationId st)
    by congruence.
  assert (H1' : Forall2 (appended (id c)
                 (userMessage (displayText st (sendText st textToSend))))
                 (conversations st) (conversations (fst r2)))
    by (rewrite K1; exact H1).
  destruct (currentConversation_related _ st (fst r2) c H2' H1'
              (appended_id _ _) Hcur) as [c1 [Hc1 R1]].
  apply appended_current in R1 as [t1 ->]; [|reflexivity].
  eexists _, _. split; [exact Hc1|]. repeat split.
Qed.

Lemma alerts_after_error_status st textToSend status e c w :
  ok status = false ->
  truthy (trim (sendText st textToSend)) = true \/ selectedFile st <> None ->
  currentConversation st = Some c ->
  alerts (snd (handleSend browser st textToSend
                 (Responded status (BodyObject None None (Some e))) st w))
  = alerts w ++ [lit "Server error " ++ String_of_N status ++ lit ": " ++ e].
Proof.
  intros Hok Hpre Hcur. rewrite handleSend_eq. cbn zeta.
  destruct (handleSend_start_sends browser st textToSend st w c Hpre Hcur)
    as (Hsent & _ & _ & H3 & _).
  cbn zeta in *. rewrite Hsent.
  unfold handleSend_settle, handleSend_try. rewrite Hok. cbn [negb].
  rewrite !bind_eq. cbn [ret fst snd alert alerts]. rewrite H3.
  destruct e as [|x e]; cbn [truthy]; [|now rewrite <- !app_assoc].
  now rewrite !app_nil_r.
Qed.

(** X17. A text send for which the model answers and the synthesis returns
    audio ends with the user's text and the model's answer appended to
    the shown conversation, the answer carrying a handle to a blob that
    holds exactly the synthesized bytes; no alert is raised. *)
Theorem text_round_trip_appends_reply st textToSend c reply audio w :
  let text := sendText st textToSend in
  selectedFile st = None ->
  truthy (trim text) = true ->
  currentConversation st = Some c ->
  generateContent text = GeminiResolves (Some reply) ->
  truthy reply = true ->
  textToSpeech reply = TtsOk audio ->
  audio <> [] ->
  Forall (fun b => (b < 256)%N) audio ->
  let r := roundTrip generateContent textToSpeech readPdfText readUtf8 stored
             browser st textToSend st w in
  exists c' mu ma url,
    currentConversation (fst r) = Some c'
    /\ messages c' = Some (messages_or_empty c ++ [mu; ma])
    /\ mu = userMessage text (timestamp mu)
    /\ ma = aiMessage reply url (timestamp ma)
    /\ nth_error (blobs (snd r)) url
       = Some {| blob_bytes := audio; blob_type := lit "audio/mpeg" |}
    /\ alerts (snd r) = alerts w.
Proof.
  intros text Hfile Htext Hcur Hg Hr Hs Hne Hb r. subst r text.
  unfold roundTrip, serve, requestFor. rewrite Hfile.
  unfold voiceChat. rewrite (truthy_trim_text _ Htext).
  unfold processTextWithAI. rewrite Hg, Hr, Hs.
  destruct audio as [|a0 audio0] eqn:Ea; [congruence|]. rewrite <- Ea in *.
  rewrite deliver_reply. cbn [replyText audioBase64].
  rewrite handleSend_eq. cbn zeta.
  destruct (handleSend_start_sends browser st textToSend st w c
              (or_introl Htext) Hcur) as (Hsent & H1 & H2 & H3 & H4).
  cbn zeta in *. rewrite Hsent.
  set (r1 := handleSend_start browser st textToSend st w) in *.
  destruct (handleSend_settle_succeeds browser st 200%N reply (encode audio)
              None audio (snd (fst r1)) (snd r1) c eq_refl Hr
              (encode_truthy _ Hne) (atob_encode _ Hb) Hcur)
    as (K1 & K2 & _ & K4 & K5).
  cbn zeta in *. rewrite (map_mod_256 _ Hb) in K5.
  set (r2 := handleSend_settle browser st _ (snd (fst r1)) (snd r1)) in *.
  destruct (currentConversation_related _ st (snd (fst r1)) c H2 H1
              (appended_id _ _) Hcur) as [c1 [Hc1 R1]].
  destruct (currentConversation_related _ (snd (fst r1)) (fst r2) c1 K2 K1
              (appended_id _ _) Hc1) as [c2 [Hc2 R2]].
  apply appended_current in R1 as [t1 ->]; [|reflexivity].
  apply appended_current in R2 as [t2 ->]; [|reflexivity].
  eexists _, _, _, _. split; [exact Hc2|].
  cbn [messages with_messages messages_or_empty].
  rewrite <- app_assoc. cbn [app].
  split; [reflexivity|].
  assert (Hd : displayText st (sendText st textToSend) = sendText st textToSend)
    by (unfold displayText; now rewrite Htext).
  rewrite Hd. repeat split; [exact K5|congruence].
Qed.

(** X18. When the backend cannot produce the reply (the model or the
    synthesis fails), the user is shown "Server error 500: " followed by
    the backend's error message; the shown conversation keeps the user's
    message and gains no reply, and no audio is registered. *)
Theorem text_round_trip_reports_failure st textToSend c message w :
  let text := sendText st textToSend in
  selectedFile st = None ->
  truthy (trim text) = true ->
  currentConversation st = Some c ->
  processTextWithAI generateContent textToSpeech text = Threw message ->
  let r := roundTrip generateContent textToSpeech readPdfText readUtf8 stored
             browser st textToSend st w in
  alerts (snd r) = alerts w ++ [lit "Server error 500: " ++ message]
  /\ (exists c' mu,
         currentConversation (fst r) = Some c'
         /\ messages c' = Some (messages_or_empty c ++ [mu])
         /\ role mu = RoleUser /\ App.text mu = text)
  /\ blobs (snd r) = blobs w.
Proof.
  intros text Hfile Htext Hcur Hp r. subst r text.
  unfold roundTrip, serve, requestFor. rewrite Hfile.
  unfold voiceChat. rewrite (truthy_trim_text _ Htext), Hp, deliver_error.
  split.
  - apply (alerts_after_error_status st textToSend 500%N message c w eq_refl
             (or_introl Htext) Hcur).
  - destruct (shown_after_failed_send st textToSend
                (Responded 500 (BodyObject None None (Some message))) c w
                (ErrorStatus 500 _ eq_refl) (or_introl Htext) Hcur)
      as [(c' & mu & H1 & H2 & H3 & H4) Hb].
    split; [|exact Hb]. exists c', mu. repeat split; try assumption.
    rewrite H4. unfold displayText. now rewrite Htext.
Qed.

(** X19. A send of the client never draws the backend's own refusals for
    missing input, nor its stock question: a text request carries a
    non-empty text, so it is not answered 400; a file request carries a
    file and a non-empty question, which is the one put in the prompt. *)
Theorem client_requests_are_complete cl textToSend :
  truthy (trim (sendText cl textToSend)) = true \/ selectedFile cl <> None ->
  match requestFor cl (sendText cl textToSend) with
  | VoiceChat text =>
      status (voiceChat generateContent textToSpeech (Some text)) <> 400%N
  | FileChat file question =>
      forall extractedText,
        (if str_eqb (mimetype (stored file)) (lit "application/pdf")
         then readPdfText (path (stored file))
         else readUtf8 (path (stored file))) = Returned extractedText ->
        str_eqb (mimetype (stored file)) (lit "application/pdf")
        || str_eqb (mimetype (stored file)) (lit "text/plain") = true ->
        fst (fileChat generateContent textToSpeech readPdfText readUtf8
               (Some (stored file)) (Some question))
        = respond (processTextWithAI generateContent textToSpeech
                     (finalPrompt extractedText question))
  end.
Proof.
  intro Hpre. unfold requestFor. destruct (selectedFile cl) as [f|].
  - intros extractedText Hx Ht. unfold fileChat.
    assert (Hq : truthy (if truthy (trim (sendText cl textToSend))
                         then sendText cl textToSend
                         else lit "Summarize this file for me.") = true).
    { destruct (truthy (trim (sendText cl textToSend))) eqn:E; [|reflexivity].
      now apply truthy_trim_text. }
    destruct (str_eqb (mimetype (stored f)) (lit "application/pdf")).
    + now rewrite Hx, Hq.
    + cbn [orb] in Ht. now rewrite Ht, Hx, Hq.
  - destruct Hpre as [H|H]; [|congruence].
    unfold voiceChat. rewrite (truthy_trim_text _ H).
    now destruct (processTextWithAI _ _ _).
Qed.

(** X20. A file of a type the backend refuses: the user is shown "Server
    error 400: Unsupported file type", the shown conversation gains only
    the user's message, and the file is detached. *)
Theorem unsupported_file_round_trip st textToSend f c w :
  selectedFile st = Some f ->
  currentConversation st = Some c ->
  str_eqb (mimetype (stored f)) (lit "application/pdf")
  || str_eqb (mimetype (stored f)) (lit "text/plain") = false ->
  let r := roundTrip generateContent textToSpeech readPdfText readUtf8 stored
             browser st textToSend st w in
  alerts (snd r) = alerts w ++ [lit "Server error 400: Unsupported file type"]
  /\ (exists c' mu,
         currentConversation (fst r) = Some c'
         /\ messages c' = Some (messages_or_empty c ++ [mu])
         /\ role mu = RoleUser)
  /\ selectedFile (fst r) = None.
Proof.
  intros Hfile Hcur Ht r. subst r.
  assert (Hpre : truthy (trim (sendText st textToSend)) = true
                 \/ selectedFile st <> None) by (right; congruence).
  unfold roundTrip, serve, requestFor. rewrite Hfile.
  unfold fileChat. apply orb_false_iff in Ht as [-> ->]. cbn [fst].
  change (deliver _) with
    (Responded 400 (BodyObject None None (Some (lit "Unsupported file type")))).
  split; [|split].
  - apply (alerts_after_error_status st textToSend 400%N _ c w eq_refl Hpre Hcur).
  - destruct (shown_after_failed_send st textToSend
                (Responded 400 (BodyObject None None
                                  (Some (lit "Unsupported file type")))) c w
                (ErrorStatus 400 _ eq_refl) Hpre Hcur)
      as [(c' & mu & H1 & H2 & H3 & _) _].
    exists c', mu. now repeat split.
  - rewrite handleSend_eq. cbn zeta.
    destruct (handleSend_start_flags browser st textToSend st w c Hpre Hcur)
      as (Hs & _ & _ & Hf & _).
    cbn zeta in *. rewrite Hs.
    set (r1 := handleSend_start browser st textToSend st w) in *.
    destruct (handleSend_settle_flags browser st
                (Responded 400 (BodyObject None None
                                  (Some (lit "Unsupported file type"))))
                (snd (fst r1)) (snd r1)) as (_ & _ & K3).
    cbn zeta in K3. rewrite K3, Hfile. reflexivity.
Qed.

End Services.

End BackendFacts.

(** ** The remote collection follows the local store *)

Module SyncFacts.

Import JSFacts Base64Facts AppFacts SessionFacts.

Local Open Scope app_scope.

Lemma id_injective_in l a b :
  NoDup (map id l) -> In a l -> In b l -> id a = id b -> a = b.
Proof.
  induction l as [|c l IH]; [intros _ []|].
  cbn [map]. intro H. inversion_clear H as [|? ? Hn Hd].
  intros [<- | Ha] [<- | Hb] E; try reflexivity.
  - exfalso. apply Hn. rewrite E. now apply in_map.
  - exfalso. apply Hn. rewrite <- E. now apply in_map.
  - now apply IH.
Qed.

Lemma upsert_new key conv docs :
  (forall d, In d docs -> id d <> key) -> upsert key conv docs = docs ++ [conv].
Proof.
  intro H. unfold upsert.
  replace (existsb (fun d => str_eqb (id d) key) docs) with false; [reflexivity|].
  symmetry. apply not_true_is_false. intro E.
  apply existsb_exists in E as (d & Hin & Hd).
  apply str_eqb_eq in Hd. exact (H d Hin Hd).
Qed.

Lemma upsert_known key conv docs d :
  In d docs -> id d = key ->
  upsert key conv docs
  = map (fun d => if str_eqb (id d) key then conv else d) docs.
Proof.
  intros Hin Hd. unfold upsert.
  replace (existsb (fun d => str_eqb (id d) key) docs) with true; [reflexivity|].
  symmetry. apply existsb_exists. exists d. split; [exact Hin|].
  now apply str_eqb_eq.
Qed.

(** A list that differs from [docs] only at the records carrying [key],
    all of which became [conv]. *)
Lemma replaced_is_map (R : Conversation -> Conversation -> Prop)
    key conv docs docs' :
  Forall2 R docs docs' ->
  (forall d d', R d d' -> In d' docs' ->
                d' = if str_eqb (id d) key then conv else d) ->
  docs' = map (fun d => if str_eqb (id d) key then conv else d) docs.
Proof.
  intro HF. induction HF as [|d d' l l' Hr _ IH]; intro H; [reflexivity|].
  cbn [map]. f_equal.
  - apply H; [exact Hr|now left].
  - apply IH. intros x x' Hx Hin. apply H; [exact Hx|now right].
Qed.

Lemma Forall2_ids (R : Conversation -> Conversation -> Prop) l l' :
  Forall2 R l l' -> (forall a b, R a b -> id b = id a) ->
  map id l' = map id l.
Proof.
  intros HF Hid. induction HF as [|a b l l' Hab _ IH]; [reflexivity|].
  cbn [map]. now rewrite IH, (Hid _ _ Hab).
Qed.

Lemma find_by_id_in key l c :
  find (fun c => str_eqb (id c) key) l = Some c -> In c l /\ id c = key.
Proof.
  intro H. apply find_some in H as [Hin Hc]. split; [exact Hin|].
  now apply str_eqb_eq.
Qed.

Lemma find_by_id_none key l :
  find (fun c => str_eqb (id c) key) l = None ->
  forall d, In d l -> id d <> key.
Proof.
  intros H d Hin E. pose proof (find_none _ _ H d Hin) as Hd.
  cbn in Hd. rewrite E, str_eqb_refl in Hd. discriminate.
Qed.

(** One write of the record found under [key] in the new list brings a
    collection equal to the old list to the new list. *)
Lemma replay_found (R : Conversation -> Conversation -> Prop) key docs docs' u :
  NoDup (map id docs) ->
  Forall2 R docs docs' ->
  (forall a b, R a b -> id b = id a) ->
  (forall a b, R a b -> id a <> key -> b = a) ->
  replay (match find (fun c => str_eqb (id c) key) docs' with
          | Some conv => [SetDoc u (id conv) conv]
          | None => []
          end) docs = docs'.
Proof.
  intros Hnd HF Hid Hother.
  pose proof (Forall2_ids R _ _ HF Hid) as Hids.
  destruct (find (fun c => str_eqb (id c) key) docs') as [conv|] eqn:F.
  - apply find_by_id_in in F as [Hin Hk].
    assert (Hex : exists d, In d docs /\ id d = key).
    { assert (Hi : In (id conv) (map id docs))
        by (rewrite <- Hids; now apply in_map).
      apply in_map_iff in Hi as (d & E & Hd). exists d. split; congruence. }
    destruct Hex as (d & Hd & Ed).
    cbn [replay fold_left applyCall]. rewrite Hk.
    rewrite (upsert_known key conv docs d Hd Ed). symmetry.
    apply (replaced_is_map R); [exact HF|].
    intros x x' Hx Hin'. destruct (str_eqb (id x) key) eqn:E.
    + apply str_eqb_eq in E.
      apply (id_injective_in docs'); try assumption; [now rewrite Hids|].
      rewrite (Hid _ _ Hx). congruence.
    + apply str_eqb_neq in E. now apply Hother.
  - cbn [replay fold_left]. symmetry.
    pose proof (find_by_id_none _ _ F) as Hnone.
    assert (Hall : forall x x', R x x' -> In x' docs' -> x' = x).
    { intros x x' Hx Hin'. apply Hother; [exact Hx|].
      rewrite <- (Hid _ _ Hx). now apply Hnone. }
    clear -HF Hall. induction HF as [|a b l l' Hab _ IH]; [reflexivity|].
    f_equal.
    + apply Hall; [exact Hab|now left].
    + apply IH. intros x x' Hx Hin. apply Hall; [exact Hx|now right].
Qed.

Lemma mirrored_still st w r :
  firestore (snd r) = firestore w ->
  conversations (fst r) = conversations st ->
  mirrored st w r.
Proof.
  intros Hf Hc. exists []. split; [now rewrite app_nil_r|now rewrite Hc].
Qed.

Lemma mirrored_trans st w r1 r2 :
  mirrored st w r1 -> mirrored (fst r1) (snd r1) r2 -> mirrored st w r2.
Proof.
  intros (c1 & F1 & R1) (c2 & F2 & R2). exists (c1 ++ c2). split.
  - now rewrite F2, F1, app_assoc.
  - unfold replay in *. now rewrite fold_left_app, R1.
Qed.

Section Sync.

Variable browser : Browser.

Lemma appended_other target mk a b :
  appended target mk a b -> id a <> target -> b = a.
Proof.
  unfold appended. intros H Hn. apply str_eqb_neq in Hn. now rewrite Hn in H.
Qed.

Lemma updateCurrentConversationMessages_firestore cl updater st w cur u :
  currentConversation cl = Some cur ->
  user cl = Some u ->
  let m := mapM (fun c => if str_eqb (id c) (id cur)
                          then ms <- updater (messages_or_empty c) ;;
                               ret (with_messages c ms)
                          else ret c) (conversations st) w in
  firestore (snd (updateCurrentConversationMessages cl updater st w))
  = firestore (snd m)
    ++ match find (fun c => str_eqb (id c) (id cur)) (fst m) with
       | Some conv => [SetDoc (uid u) (id conv) conv]
       | None => []
       end.
Proof.
  intros H U. cbn zeta. unfold updateCurrentConversationMessages. rewrite H.
  rewrite !bind_eq. cbn [ret snd]. rewrite U.
  destruct (find _ _); [|now rewrite app_nil_r].
  unfold saveConversationToFirestore. now rewrite U.
Qed.

Lemma updateCurrentConversationMessages_mirrored cl mk st w u :
  user cl = Some u ->
  NoDup (map id (conversations st)) ->
  mirrored st w
    (updateCurrentConversationMessages cl
       (fun msgs => t <- now browser ;; ret (msgs ++ [mk t])) st w).
Proof.
  intros U Hnd. destruct (currentConversation cl) as [cur|] eqn:Hcur.
  2:{ rewrite (updateCurrentConversationMessages_no_current _ _ _ _ Hcur).
      now apply mirrored_still. }
  eexists. split.
  - rewrite (updateCurrentConversationMessages_firestore _ _ _ _ _ _ Hcur U).
    cbn zeta.
    destruct (mapM_appended browser (id cur) mk (conversations st) w)
      as (_ & _ & _ & -> & _).
    reflexivity.
  - rewrite (updateCurrentConversationMessages_state _ _ _ _ _ Hcur).
    cbn [conversations setConversations].
    destruct (mapM_appended browser (id cur) mk (conversations st) w)
      as (HF & _).
    cbn zeta in HF.
    apply (replay_found (appended (id cur) mk)); try assumption.
    + apply appended_id.
    + apply appended_other.
Qed.

Lemma mirrored_from st w st0 w0 r :
  conversations st0 = conversations st ->
  firestore w0 = firestore w ->
  mirrored st0 w0 r -> mirrored st w r.
Proof.
  intros Hc Hf (calls & F & R). exists calls. now rewrite <- Hc, <- Hf.
Qed.

Lemma handleSend_start_mirrored cl textToSend st w u :
  user cl = Some u ->
  NoDup (map id (conversations st)) ->
  mirrored st w (snd (fst (handleSend_start browser cl textToSend st w)),
                 snd (handleSend_start browser cl textToSend st w)).
Proof.
  intros U Hnd. unfold handleSend_start.
  destruct (negb (truthy (trim (sendText cl textToSend))) && _);
    [now apply mirrored_still|].
  destruct (currentConversation cl) as [cur|] eqn:Hcur;
    [|now apply mirrored_still].
  rewrite !bind_eq. cbn [fetch ret fst snd].
  match goal with |- context [(if ?b then ?m else ret st) w] =>
    assert (K : mirrored st w ((if b then m else ret st) w)) end.
  { destruct (truthy _); [|now apply mirrored_still].
    now apply (updateCurrentConversationMessages_mirrored _ _ _ _ u). }
  destruct K as (calls & F & R). exists calls. split; assumption.
Qed.

Lemma handleSend_settle_mirrored cl outcome st w u :
  user cl = Some u ->
  NoDup (map id (conversations st)) ->
  mirrored st w (handleSend_settle browser cl outcome st w).
Proof.
  intros U Hnd. unfold handleSend_settle, handleSend_try.
  destruct outcome as [message | status body].
  { now apply mirrored_still. }
  set (st0 := match selectedFile cl with
              | Some _ => setSelectedFile None st | None => st end).
  assert (J1 : conversations st0 = conversations st)
    by (subst st0; now destruct (selectedFile cl)).
  assert (Kalert : forall msg,
            mirrored st w ((r <- (alert msg ;; ret (Returned tt, st0)) ;;
                            match fst r with
                            | Returned _ => ret tt
                            | Threw message =>
                                alert (lit "Network error: " ++ message)
                            end ;; ret (setLoading false (snd r))) w)).
  { intro msg. rewrite !bind_eq. now apply mirrored_still. }
  assert (Kthrow : forall msg,
            mirrored st w ((r <- ret (@Threw unit msg, st0) ;;
                            match fst r with
                            | Returned _ => ret tt
                            | Threw message =>
                                alert (lit "Network error: " ++ message)
                            end ;; ret (setLoading false (snd r))) w)).
  { intro msg. rewrite !bind_eq. now apply mirrored_still. }
  destruct (negb (ok status)); [apply Kalert|].
  destruct body as [message | replyText audioBase64 error]; [apply Kthrow|].
  destruct audioBase64 as [audio|], replyText as [reply|]; try apply Kalert.
  destruct (negb (truthy audio) || negb (truthy reply)); [apply Kalert|].
  unfold base64ToAudioUrl. destruct (atob audio) as [binary|]; [|apply Kthrow].
  repeat (rewrite !bind_eq; cbn [createObjectURL ret fst snd]).
  match goal with |- context [updateCurrentConversationMessages cl ?upd st0 ?w1] =>
    assert (K : mirrored st0 w1 (updateCurrentConversationMessages cl upd st0 w1))
  end.
  { apply (updateCurrentConversationMessages_mirrored _ _ _ _ u U).
    now rewrite J1. }
  apply (mirrored_from st w) in K; [|exact J1|reflexivity].
  destruct K as (calls & F & R). exists calls. split; assumption.
Qed.

Lemma handleSend_mirrored cl textToSend outcome st w u :
  user cl = Some u ->
  NoDup (map id (conversations st)) ->
  mirrored st w (handleSend browser cl textToSend outcome st w).
Proof.
  intros U Hnd. rewrite handleSend_eq. cbn zeta.
  pose proof (handleSend_start_mirrored cl textToSend st w u U Hnd) as K1.
  pose proof (handleSend_start_kept browser cl textToSend st w) as (Hids & _).
  destruct (fst (fst (handleSend_start browser cl textToSend st w)));
    [|exact K1].
  eapply mirrored_trans; [exact K1|].
  apply (handleSend_settle_mirrored _ _ _ _ u U). cbn [fst] in *.
  now rewrite Hids.
Qed.

Lemma Forall2_map_eq (f : Conversation -> Conversation) l :
  Forall2 (fun a b => b = f a) l (map f l).
Proof. induction l; constructor; auto. Qed.

Lemma clearChatById_mirrored cl convId st w u :
  user cl = Some u ->
  NoDup (map id (conversations st)) ->
  mirrored st w (clearChatById cl convId st w).
Proof.
  intros U Hnd. unfold clearChatById. rewrite bind_eq. cbn [ret fst snd].
  rewrite U.
  set (f := fun c => if str_eqb (id c) convId then with_messages c [] else c).
  exists (match find (fun c => str_eqb (id c) convId) (map f (conversations st)) with
          | Some conv => [SetDoc (uid u) (id conv) conv]
          | None => []
          end). split.
  - destruct (find _ _); cbn [ret snd]; [|symmetry; apply app_nil_r].
    unfold saveConversationToFirestore. now rewrite U.
  - assert (Hc : forall b : bool,
               conversations
                 (if b
                  then setInputText []
                         (setConversations (map f (conversations st)) st)
                  else setConversations (map f (conversations st)) st)
               = map f (conversations st)) by (now intros []).
    cbn [ret fst]. rewrite Hc.
    apply (replay_found (fun a b => b = f a)); try assumption.
    + apply Forall2_map_eq.
    + intros a b ->. subst f. cbn. now destruct (str_eqb (id a) convId).
    + intros a b -> Hn. subst f. cbn. apply str_eqb_neq in Hn. now rewrite Hn.
Qed.

Lemma handleRenameChat_mirrored cl conv answer st w u :
  user cl = Some u ->
  NoDup (map id (conversations st)) ->
  In conv (conversations st) ->
  mirrored st w (handleRenameChat cl conv answer st w).
Proof.
  intros U Hnd Hin. unfold handleRenameChat.
  destruct answer as [newTitle|]; [|now apply mirrored_still].
  destruct (negb (truthy newTitle) || negb (truthy (trim newTitle)));
    [now apply mirrored_still|].
  rewrite bind_eq. cbn [ret fst snd conversations setConversations].
  exists [SetDoc (uid u) (id conv) (with_title conv (trim newTitle))]. split.
  - unfold saveConversationToFirestore. now rewrite U.
  - cbn [replay fold_left applyCall].
    rewrite (upsert_known _ _ _ conv Hin eq_refl).
    apply map_ext_in. intros d Hd.
    destruct (str_eqb (id d) (id conv)) eqn:E; [|reflexivity].
    apply str_eqb_eq in E.
    now rewrite (id_injective_in _ _ _ Hnd Hd Hin E).
Qed.

Section FreshIds.

Variable gen : nat -> jsstring.
Hypothesis has_randomUUID : crypto_randomUUID browser = Some gen.
Hypothesis gen_injective : forall n m, gen n = gen m -> n = m.

Lemma handleNewChat_mirrored st w u :
  user st = Some u ->
  ids_fresh gen st w ->
  mirrored st w (handleNewChat browser st st w).
Proof.
  intros U [Hnd Hall]. unfold handleNewChat. rewrite !bind_eq.
  cbn [ret fst snd conversations setConversations setCurrentConversationId
       setInputText].
  set (c := fst (createNewConversation browser
                   (List.length (conversations st) + 1) w)).
  exists [SetDoc (uid u) (id c) c]. split.
  - unfold saveConversationToFirestore. rewrite U. cbn [remote snd firestore].
    now destruct (createNewConversation_world browser
                    (List.length (conversations st) + 1) w) as [-> _].
  - cbn [replay fold_left applyCall]. apply upsert_new.
    intros d Hd E. destruct (Hall d Hd) as (n & Hn & En).
    destruct (createNewConversation_drawn browser gen has_randomUUID
                (List.length (conversations st) + 1) w) as [Hi _].
    fold c in Hi. rewrite Hi, En in E. apply gen_injective in E. lia.
Qed.

Lemma deleteChatById_mirrored cl convId st w u :
  user cl = Some u ->
  mirrored st w (deleteChatById browser cl convId st w).
Proof.
  intro U. unfold deleteChatById, deleteConversationFromFirestore,
    saveConversationToFirestore. rewrite !bind_eq, U. cbn [remote snd].
  destruct (without convId (conversations st)) as [|first rest] eqn:E.
  - rewrite !bind_eq. cbn [ret fst snd remote firestore conversations
      setConversations].
    match goal with |- context [createNewConversation browser 1 ?w1] =>
      set (c := fst (createNewConversation browser 1 w1));
      destruct (createNewConversation_world browser 1 w1) as [Hf _] end.
    exists [DeleteDoc (uid u) convId; SetDoc (uid u) (id c) c]. split.
    + rewrite Hf. cbn [firestore]. now rewrite <- app_assoc.
    + cbn [replay fold_left applyCall]. rewrite E. reflexivity.
  - cbn [ret fst snd firestore]. exists [DeleteDoc (uid u) convId]. split.
    + reflexivity.
    + cbn [replay fold_left applyCall]. rewrite E.
      now destruct (is_current cl convId).
Qed.

Lemma handleEvent_local_user ev st w :
  local_event ev st -> user (fst (handleEvent browser ev st w)) = user st.
Proof.
  intro L. destruct ev as [op | n | convId | conv answer | textToSend outcome
                          | docs | fu]; cbn [handleEvent]; try contradiction.
  - apply (step_user browser).
  - now destruct (nth_error (conversations st) n).
  - now destruct (clearChatById_kept st convId st w) as (_ & _ & -> & _).
  - now destruct (handleRenameChat_kept st conv answer st w) as (_ & _ & -> & _).
  - now destruct (handleSend_kept browser st textToSend outcome st w)
      as (_ & _ & -> & _).
Qed.

Lemma handleEvent_local_fresh ev st w :
  local_event ev st -> ids_fresh gen st w ->
  ids_fresh gen (fst (handleEvent browser ev st w))
    (snd (handleEvent browser ev st w)).
Proof.
  intros L F. destruct ev as [op | n | convId | conv answer | textToSend outcome
                            | docs | fu]; cbn [handleEvent]; try contradiction.
  - now apply (step_ids_fresh browser gen has_randomUUID gen_injective).
  - now destruct (nth_error (conversations st) n).
  - exact (ids_fresh_kept gen st w _ (clearChatById_kept st convId st w) F).
  - exact (ids_fresh_kept gen st w _ (handleRenameChat_kept st conv answer st w) F).
  - exact (ids_fresh_kept gen st w _
             (handleSend_kept browser st textToSend outcome st w) F).
Qed.

Lemma handleEvent_mirrored ev st w u :
  user st = Some u -> ids_fresh gen st w -> local_event ev st ->
  mirrored st w (handleEvent browser ev st w).
Proof.
  intros U F L. pose proof F as [Hnd _].
  destruct ev as [[|convId] | n | convId | conv answer | textToSend outcome
                 | docs | fu]; cbn [handleEvent step]; try contradiction.
  - now apply (handleNewChat_mirrored st w u).
  - now apply (deleteChatById_mirrored _ _ _ _ u).
  - destruct (nth_error (conversations st) n); now apply mirrored_still.
  - now apply (clearChatById_mirrored _ _ _ _ u).
  - now apply (handleRenameChat_mirrored _ _ _ _ _ u).
  - now apply (handleSend_mirrored _ _ _ _ _ u).
Qed.

(** X21. For a signed-in user whose store equals the remote collection, and
    an id source that never repeats: after any sequence of the user's own
    events, the remote calls issued since then, replayed on that
    collection, give exactly the local store. *)
Theorem signed_in_session_is_mirrored evs st w u :
  user st = Some u ->
  ids_fresh gen st w ->
  local_session browser evs st w ->
  let r := session browser evs st w in
  exists calls,
    firestore (snd r) = firestore w ++ calls
    /\ replay calls (conversations st) = conversations (fst r).
Proof.
  intros U F L. cbn zeta. change (mirrored st w (session browser evs st w)).
  revert st w U F L. induction evs as [|ev evs IH]; intros st w U F L.
  - now apply mirrored_still.
  - cbn [session]. rewrite bind_eq. destruct L as [Lev L].
    eapply mirrored_trans; [exact (handleEvent_mirrored ev st w u U F Lev)|].
    apply IH.
    + now rewrite handleEvent_local_user.
    + now apply handleEvent_local_fresh.
    + exact L.
Qed.

End FreshIds.

End Sync.

End SyncFacts.

(** ** The audio endpoint *)

Module MoreBackendFacts.

Import Backend.

Section Services.

Variable generateContent : jsstring -> GeminiResult.
Variable textToSpeech : jsstring -> TtsResult.
Variable recognize : list N -> SttResult.

(** X22. The audio endpoint answers 200 exactly when speech was recognised
    and the helper returned; the body then carries the recognised
    transcript, which is not empty, with the reply.  Without a file, or
    without recognised speech, it answers 400 and the helper is not
    consulted. *)
Theorem voiceChatAudio_statuses file :
  let r := voiceChatAudio generateContent textToSpeech recognize file in
  (status r = 200%N <->
   exists audioBuffer transcript reply,
     file = Some audioBuffer
     /\ recognize audioBuffer = SttResolves (Some transcript)
     /\ truthy transcript = true
     /\ processTextWithAI generateContent textToSpeech transcript
        = Returned reply
     /\ body r = TranscriptBody transcript reply)
  /\ (status r = 400%N <->
      file = None
      \/ exists audioBuffer t,
           file = Some audioBuffer
           /\ recognize audioBuffer = SttResolves t
           /\ field_truthy t = false).
Proof.
  cbn zeta. unfold voiceChatAudio.
  destruct file as [audioBuffer|];
    [destruct (recognize audioBuffer) as [message | [transcript|]] eqn:Er;
     [|destruct (truthy transcript) eqn:Ht;
       [cbn [truthy]; rewrite Ht;
        destruct (processTextWithAI generateContent textToSpeech transcript)
          as [reply|message] eqn:Ep|]|]|];
    cbn [truthy status body]; split; split; intro H;
    try discriminate;
    repeat match goal with
    | H : exists _, _ |- _ => destruct H
    | H : _ /\ _ |- _ => destruct H
    | H : _ \/ _ |- _ => destruct H
    | H : Some _ = Some _ |- _ => injection H as ?; subst
    | H : recognize ?a = _, H' : recognize ?a = _ |- _ =>
        rewrite H in H'; try discriminate H'; injection H' as ?; subst
    end;
    cbn [field_truthy] in *; try congruence; eauto 12.
Qed.

End Services.

End MoreBackendFacts.

Import MoreBackendFacts.

(** ** Concrete runs of the session and backend facts *)

Module Runs.

Import Backend SessionFacts CodecFacts BackendFacts SyncFacts.

Lemma tally_injective n m : repeat 117%N (S n) = repeat 117%N (S m) -> n = m.
Proof.
  intro H. apply (f_equal (@List.length N)) in H.
  rewrite !repeat_length in H. lia.
Qed.

Lemma session_keeps_active_listed_witness :
  conversations
    (fst (session sampleBrowser
            [Store NewChat; Select 0; Clear (lit "u0");
             Store (DeleteChat (lit "u0"));
             Send (Some (lit "hi")) (Rejected (lit "offline"))]
            (fst mounted) (snd mounted))) <> [].
Proof.
  apply (session_keeps_active_listed sampleBrowser
           [Store NewChat; Select 0; Clear (lit "u0");
            Store (DeleteChat (lit "u0"));
            Send (Some (lit "hi")) (Rejected (lit "offline"))]
           (fst mounted) (snd mounted)).
  eexists. split; [left; reflexivity|reflexivity].
Defined.

Lemma logged_out_reset_single_default_witness :
  exists fresh,
    conversations (fst (useEffect_loggedOut sampleBrowser initialState
                          signedIn emptyWorld)) = [fresh]
    /\ title fresh = lit "New Chat 1".
Proof.
  destruct (logged_out_reset_single_default sampleBrowser initialState
              signedIn emptyWorld eq_refl) as (fresh & H1 & H2 & _).
  exists fresh. split; assumption.
Defined.

Lemma anonymous_session_ids_distinct_witness :
  NoDup (map id (conversations
                   (fst (session tallyBrowser
                           [Store NewChat; Store NewChat;
                            Store (DeleteChat (lit "uu")); Store NewChat]
                           (fst tallyMounted) (snd tallyMounted))))).
Proof.
  apply (anonymous_session_ids_distinct tallyBrowser _ eq_refl tally_injective
           [Store NewChat; Store NewChat;
            Store (DeleteChat (lit "uu")); Store NewChat]
           (fst tallyMounted) (snd tallyMounted)).
  - reflexivity.
  - reflexivity.
  - apply (mount_ids_fresh tallyBrowser _ eq_refl).
Defined.

Lemma refused_send_only_alerts_witness :
  exists msg,
    handleSend sampleBrowser (fst mounted) (Some (lit "  "))
      (Rejected (lit "offline")) (fst mounted) (snd mounted)
    = (fst mounted, snd (alert msg (snd mounted)))
    /\ (msg = lit "Please type a message or upload a file."
        \/ msg = lit "No active conversation. Create a new chat first.").
Proof.
  apply (refused_send_only_alerts sampleBrowser (fst mounted)
           (Some (lit "  ")) (Rejected (lit "offline"))
           (fst mounted) (snd mounted)).
  left. split; reflexivity.
Defined.

Lemma send_issues_one_request_witness :
  network (snd (handleSend sampleBrowser (fst mounted) (Some (lit "hi"))
                  (Rejected (lit "offline")) (fst mounted) (snd mounted)))
  = [VoiceChat (lit "hi")].
Proof.
  apply (send_issues_one_request sampleBrowser (fst mounted) (Some (lit "hi"))
           (Rejected (lit "offline")) (fst mounted) (snd mounted)
           {| id := lit "u0"; title := lit "New Chat 1"; createdAt := 1000%Z;
              messages := Some [] |}).
  - left. reflexivity.
  - reflexivity.
Defined.

Lemma send_ends_idle_witness :
  loading (fst (handleSend sampleBrowser (fst mounted) (Some (lit "hi"))
                  (Rejected (lit "offline")) (fst mounted) (snd mounted)))
  = false.
Proof.
  apply (send_ends_idle sampleBrowser (fst mounted) (Some (lit "hi"))
           (Rejected (lit "offline")) (fst mounted) (snd mounted)
           {| id := lit "u0"; title := lit "New Chat 1"; createdAt := 1000%Z;
              messages := Some [] |}).
  - left. reflexivity.
  - reflexivity.
Defined.

Lemma failure_alert_texts_witness :
  alerts (snd (handleSend_settle sampleBrowser (fst mounted)
                 (Responded 500 (BodyObject None None (Some (lit "boom"))))
                 (fst mounted) emptyWorld))
  = [lit "Server error 500: boom"].
Proof.
  apply (proj1 (proj2 (failure_alert_texts sampleBrowser (fst mounted)
                         (fst mounted) emptyWorld))).
  reflexivity.
Defined.

Lemma clear_empties_only_named_witness :
  snd (clearChatById (fst mounted) (lit "u0") (fst mounted) emptyWorld)
  = emptyWorld.
Proof.
  apply (clear_empties_only_named (fst mounted) (lit "u0") (fst mounted)
           emptyWorld).
  reflexivity.
Defined.

Lemma delete_active_selects_first_witness :
  let st := fst (run sampleBrowser [NewChat] (fst mounted) (snd mounted)) in
  currentConversationId
    (fst (deleteChatById sampleBrowser st (lit "u1") st emptyWorld))
  = Some (lit "u0").
Proof.
  intro st.
  apply (delete_active_selects_first sampleBrowser st (lit "u1") st emptyWorld
           {| id := lit "u0"; title := lit "New Chat 1"; createdAt := 1000%Z;
              messages := Some [] |} []).
  - reflexivity.
  - reflexivity.
Defined.

Lemma anonymous_session_never_writes_witness :
  firestore (snd (session sampleBrowser
                    [Store NewChat; Rename {| id := lit "u0"; title := [];
                                              createdAt := 0%Z;
                                              messages := None |}
                                      (Some (lit "Trip"));
                     Send (Some (lit "hi")) (Rejected (lit "offline"));
                     Snapshot remoteDocs; Store (DeleteChat (lit "u0"))]
                    (fst mounted) (snd mounted)))
  = [].
Proof.
  apply (anonymous_session_never_writes sampleBrowser
           [Store NewChat; Rename {| id := lit "u0"; title := [];
                                     createdAt := 0%Z; messages := None |}
                             (Some (lit "Trip"));
            Send (Some (lit "hi")) (Rejected (lit "offline"));
            Snapshot remoteDocs; Store (DeleteChat (lit "u0"))]
           (fst mounted) (snd mounted)).
  - reflexivity.
  - reflexivity.
Defined.

Lemma fallback_ids_collide_witness :
  exists c1 c2,
    conversations (fst (run fallbackBrowser [NewChat; NewChat]
                          initialState emptyWorld))
    = conversations initialState ++ [c1; c2]
    /\ id c1 = String_of_Z 1700000000000
    /\ id c2 = id c1
    /\ without (id c1)
         (conversations (fst (run fallbackBrowser [NewChat; NewChat]
                                initialState emptyWorld)))
       = without (id c1) (conversations initialState).
Proof.
  apply (fallback_ids_collide fallbackBrowser initialState emptyWorld).
  - reflexivity.
  - reflexivity.
Defined.

Lemma fileChat_removes_upload_witness :
  fileChat answering speaking readable readable
    (Some (storedAsPng {| name := lit "a.png"; content := [] |})) None
  = ({| status := 400; body := ErrorBody (lit "Unsupported file type") |},
     [lit "uploads/1"]).
Proof.
  apply (fileChat_removes_upload answering speaking readable readable
           (storedAsPng {| name := lit "a.png"; content := [] |}) None).
  reflexivity.
Defined.

Lemma text_round_trip_appends_reply_witness :
  let r := roundTrip answering speaking readable readable storedAsText
             sampleBrowser (fst mounted) (Some (lit "hi")) (fst mounted)
             (snd mounted) in
  exists c' mu ma url,
    currentConversation (fst r) = Some c'
    /\ messages c' = Some ([] ++ [mu; ma])
    /\ mu = userMessage (lit "hi") (timestamp mu)
    /\ ma = aiMessage (lit "yo") url (timestamp ma)
    /\ nth_error (blobs (snd r)) url
       = Some {| blob_bytes := [77; 97; 110]%N; blob_type := lit "audio/mpeg" |}
    /\ alerts (snd r) = alerts (snd mounted).
Proof.
  apply (text_round_trip_appends_reply answering speaking readable readable
           storedAsText sampleBrowser (fst mounted) (Some (lit "hi"))
           {| id := lit "u0"; title := lit "New Chat 1"; createdAt := 1000%Z;
              messages := Some [] |} (lit "yo") [77; 97; 110]%N (snd mounted)).
  - reflexivity.
  - reflexivity.
  - reflexivity.
  - reflexivity.
  - reflexivity.
  - reflexivity.
  - discriminate.
  - repeat constructor.
Defined.

Lemma text_round_trip_reports_failure_witness :
  alerts (snd (roundTrip answering overQuota readable readable storedAsText
                 sampleBrowser (fst mounted) (Some (lit "hi")) (fst mounted)
                 (snd mounted)))
  = [lit "Server error 500: ElevenLabs TTS failed: quota"].
Proof.
  apply (text_round_trip_reports_failure answering overQuota readable readable
           storedAsText sampleBrowser (fst mounted) (Some (lit "hi"))
           {| id := lit "u0"; title := lit "New Chat 1"; createdAt := 1000%Z;
              messages := Some [] |}
           (lit "ElevenLabs TTS failed: quota") (snd mounted)).
  - reflexivity.
  - reflexivity.
  - reflexivity.
  - reflexivity.
Defined.

Lemma client_requests_are_complete_witness :
  status (voiceChat answering overQuota (Some (lit "hi"))) <> 400%N.
Proof.
  apply (client_requests_are_complete answering overQuota readable readable
           storedAsText (fst mounted) (Some (lit "hi"))).
  left. reflexivity.
Defined.

Lemma unsupported_file_round_trip_witness :
  alerts (snd (roundTrip answering speaking readable readable storedAsPng
                 sampleBrowser withFile None withFile (snd mounted)))
  = [lit "Server error 400: Unsupported file type"].
Proof.
  apply (unsupported_file_round_trip answering speaking readable readable
           storedAsPng sampleBrowser withFile None
           {| name := lit "notes.png"; content := [1; 2; 3]%N |}
           {| id := lit "u0"; title := lit "New Chat 1"; createdAt := 1000%Z;
              messages := Some [] |} (snd mounted)).
  - reflexivity.
  - reflexivity.
  - reflexivity.
Defined.

Lemma signed_in_session_is_mirrored_witness :
  let evs := [Store NewChat;
              Rename {| id := lit "u"; title := lit "New Chat 1";
                        createdAt := 1000%Z; messages := Some [] |}
                (Some (lit " Trip "));
              Send (Some (lit "hi")) (Rejected (lit "offline"));
              Clear (lit "u");
              Store (DeleteChat (lit "uu"))] in
  let r := session tallyBrowser evs tallySignedIn (snd tallyMounted) in
  exists calls,
    firestore (snd r) = firestore (snd tallyMounted) ++ calls
    /\ replay calls (conversations tallySignedIn) = conversations (fst r).
Proof.
  apply (signed_in_session_is_mirrored tallyBrowser _ eq_refl tally_injective
           [Store NewChat;
            Rename {| id := lit "u"; title := lit "New Chat 1";
                      createdAt := 1000%Z; messages := Some [] |}
              (Some (lit " Trip "));
            Send (Some (lit "hi")) (Rejected (lit "offline"));
            Clear (lit "u");
            Store (DeleteChat (lit "uu"))]
           tallySignedIn (snd tallyMounted) {| uid := lit "alice" |}).
  - reflexivity.
  - apply (mount_ids_fresh tallyBrowser _ eq_refl).
  - vm_compute. repeat split. left. reflexivity.
Defined.

End Runs.

(** ** A send belongs to the render that started it *)

Module ClosureFacts.

Import JSFacts Base64Facts AppFacts SessionFacts.

Local Open Scope app_scope.

Section Closure.

Variable browser : Browser.

(** Every outcome either is a failure or has the shape the client
    accepts. *)
Lemma outcome_cases outcome :
  Failed outcome
  \/ exists status reply audio error binary,
       outcome = Responded status (BodyObject (Some reply) (Some audio) error)
       /\ ok status = true /\ truthy reply = true /\ truthy audio = true
       /\ atob audio = Some binary.
Proof.
  destruct outcome as [message | status body]; [left; constructor|].
  destruct (ok status) eqn:Hok; [|left; now constructor].
  destruct body as [message | replyText audioBase64 error];
    [left; now constructor|].
  destruct replyText as [reply|];
    [|left; apply MissingField; [assumption|now left]].
  destruct audioBase64 as [audio|];
    [|left; apply MissingField; [assumption|now right]].
  destruct (truthy reply) eqn:Hr;
    [|left; apply MissingField; [assumption|now left]].
  destruct (truthy audio) eqn:Ha;
    [|left; apply MissingField; [assumption|now right]].
  destruct (atob audio) as [binary|] eqn:Hd;
    [|left; now apply UndecodableAudio].
  right. now exists status, reply, audio, error, binary.
Qed.

Lemma appended_only target mk :
  forall l l',
    Forall2 (appended target mk) l l' ->
    Forall2 (fun c c' => id c' = id c /\ (id c <> target -> c' = c)) l l'.
Proof.
  induction 1 as [|a b l l' Hab _ IH]; constructor; [|exact IH].
  split; [now apply (appended_id target mk)|].
  intro Hn. unfold appended in Hab. apply str_eqb_neq in Hn.
  now rewrite Hn in Hab.
Qed.

Lemma only_refl target (l : list Conversation) :
  Forall2 (fun c c' => id c' = id c /\ (id c <> target -> c' = c)) l l.
Proof. induction l; constructor; auto. Qed.

Lemma only_trans target (l1 l2 l3 : list Conversation) :
  Forall2 (fun c c' => id c' = id c /\ (id c <> target -> c' = c)) l1 l2 ->
  Forall2 (fun c c' => id c' = id c /\ (id c <> target -> c' = c)) l2 l3 ->
  Forall2 (fun c c' => id c' = id c /\ (id c <> target -> c' = c)) l1 l3.
Proof.
  intro H. revert l3. induction H as [|a b l l' [Hi Ho] _ IH]; intros l3 H3.
  - inversion H3. constructor.
  - inversion H3 as [|b' c l2' l3' [Hi' Ho'] Hr]; subst.
    constructor; [|now apply IH].
    split; [congruence|]. intro Hn. rewrite Ho', Ho; congruence.
Qed.

(** X23. A send changes only the conversations that carry the id of the
    conversation shown in the render that started it, whatever the store
    holds and whichever chat is active by the time it runs; the active id
    is left alone.  So the result of a voice recognition started in one
    chat lands in that chat even after the user moved to another, whose
    record is unchanged. *)
Theorem send_touches_only_its_conversation cl textToSend outcome st w a :
  currentConversation cl = Some a ->
  let st' := fst (handleSend browser cl textToSend outcome st w) in
  Forall2 (fun c c' => id c' = id c /\ (id c <> id a -> c' = c))
    (conversations st) (conversations st')
  /\ currentConversationId st' = currentConversationId st
  /\ forall b, currentConversation st = Some b -> id b <> id a ->
               currentConversation st' = Some b.
Proof.
  intros Hcur st'.
  assert (H : Forall2 (fun c c' => id c' = id c /\ (id c <> id a -> c' = c))
                (conversations st) (conversations st')
              /\ currentConversationId st' = currentConversationId st).
  { subst st'. rewrite handleSend_eq. cbn zeta.
    destruct (negb (truthy (trim (sendText cl textToSend)))
              && match selectedFile cl with Some _ => false | None => true end)
      eqn:Ev.
    { unfold handleSend_start. rewrite Ev. cbn. split; [apply only_refl|reflexivity]. }
    assert (Hpre : truthy (trim (sendText cl textToSend)) = true
                   \/ selectedFile cl <> None).
    { destruct (truthy (trim (sendText cl textToSend))); [now left|].
      right. destruct (selectedFile cl); [discriminate|discriminate Ev]. }
    destruct (handleSend_start_sends browser cl textToSend st w a Hpre Hcur)
      as (Hs & H1 & H2 & _).
    cbn zeta in *. rewrite Hs.
    set (r1 := handleSend_start browser cl textToSend st w) in *.
    apply appended_only in H1.
    destruct (outcome_cases outcome)
      as [HF | (status & reply & audio & error & binary & -> & Hok & Hr & Ha & Hd)].
    - destruct (handleSend_settle_fails browser cl outcome (snd (fst r1))
                  (snd r1) HF) as (K1 & K2 & _).
      cbn zeta in *. rewrite K1, K2. now split.
    - destruct (handleSend_settle_succeeds browser cl status reply audio error
                  binary (snd (fst r1)) (snd r1) a Hok Hr Ha Hd Hcur)
        as (K1 & K2 & _).
      cbn zeta in *. apply appended_only in K1. split; [|congruence].
      now apply (only_trans (id a) _ (conversations (snd (fst r1)))). }
  destruct H as [HF Hc]. split; [exact HF|]. split; [exact Hc|].
  intros b Hb Hn.
  destruct (currentConversation_related _ st st' b Hc HF
              (fun x y H => proj1 H) Hb) as (b' & Hb' & _ & Ho).
  now rewrite Hb', (Ho Hn).
Qed.

End Closure.

Lemma send_touches_only_its_conversation_witness :
  currentConversation
    (fst (handleSend sampleBrowser firstActive (Some (lit "hello"))
            (Rejected (lit "offline")) twoChats emptyWorld))
  = Some {| id := lit "u1"; title := lit "New Chat 2"; createdAt := 1001%Z;
            messages := Some [] |}.
Proof.
  apply (send_touches_only_its_conversation sampleBrowser firstActive
           (Some (lit "hello")) (Rejected (lit "offline")) twoChats emptyWorld
           {| id := lit "u0"; title := lit "New Chat 1"; createdAt := 1000%Z;
              messages := Some [] |}).
  - reflexivity.
  - reflexivity.
  - vm_compute. discriminate.
Defined.

End ClosureFacts.
